(** * ForceTest.tsx: the necklace graph, its forces and its wavy links

    A shallow embedding of [src/components/ForceTest.tsx].

    - JavaScript numbers are IEEE 754 binary64 values: they are Rocq's
      primitive [float]s, with the same rounding, infinities, signed zeros
      and NaN.
    - [Math.cos], [Math.sin], [Math.random] and the d3 library (the line
      generator, the built-in forces) are not part of the repository: they are
      the fields of two classes, [MathLib] and [D3].
    - Objects shared by reference (the node objects held by both [nodes] and
      the links) live in one store, the list of nodes; a link holds the
      indices of its two ends.
    - A JavaScript exception is a [Throw] of the [Completion] monad. *)

From Stdlib Require Import Floats ZArith Lia.
From stdpp Require Import base option list strings.

#[local] Set Warnings "-inexact-float".
#[local] Open Scope float_scope.

(** ** JavaScript numbers *)

Abbreviation number := float (only parsing).

(** [Math.PI], the binary64 value nearest to pi. *)
Definition Math_PI : number := 0x1.921fb54442d18p+1.

(** An integer (an array index, an array length) as a number: the nearest
    binary64 value, exact below 2^53. *)
Definition number_of_Z (z : Z) : number :=
  SF2Prim (binary_normalize prec emax z 0 false).

Definition number_of_nat (n : nat) : number := number_of_Z (Z.of_nat n).

(** A property that was never assigned reads as [undefined]; arithmetic on
    it goes through ToNumber, which gives NaN. *)
Definition ToNumber (v : option number) : number := default nan v.

(** ToBoolean on a number: zero (of either sign) and NaN are falsy. *)
Definition ToBoolean (v : number) : bool := negb ((v =? 0) || is_nan v).

(** [v || 0] for a possibly undefined number [v]. *)
Definition or_zero (v : option number) : number :=
  match v with
  | Some a => if ToBoolean a then a else 0
  | None => 0
  end.

(** [Math.min(a, b)]: NaN if either is NaN, and -0 is below +0. *)
Definition Math_min (a b : number) : number :=
  if is_nan a || is_nan b then nan
  else if a <? b then a
  else if b <? a then b
  else if get_sign a then a else b.

(** Neither NaN nor an infinity. *)
Definition finite (a : number) : bool :=
  match Prim2SF a with
  | S754_nan | S754_infinity _ => false
  | S754_zero _ | S754_finite _ _ _ => true
  end.

(** ** Exceptions *)

Inductive Error := TypeError | RangeError.

Inductive Completion (A : Type) :=
  | Normal (a : A)
  | Throw (e : Error).
Arguments Normal {A} a.
Arguments Throw {A} e.

#[export] Instance Completion_ret : MRet Completion := @Normal.
#[export] Instance Completion_bind : MBind Completion :=
  fun A B f m => match m with Normal a => f a | Throw e => Throw e end.
#[export] Instance Completion_fmap : FMap Completion :=
  fun A B f m => match m with Normal a => Normal (f a) | Throw e => Throw e end.

(** [l.forEach((a, i) => ...)] where the callback may throw: the elements
    are visited in order, and the first exception ends the loop. *)
Fixpoint forEach_from {A B} (f : nat -> A -> Completion B) (i : nat)
    (l : list A) : Completion (list B) :=
  match l with
  | [] => Normal []
  | a :: l' =>
      b ← f i a;
      bs ← forEach_from f (S i) l';
      Normal (b :: bs)
  end.

Definition forEach {A B} (f : nat -> A -> Completion B) (l : list A)
    : Completion (list B) :=
  forEach_from f 0 l.

(** ** The data model *)

Module Node.
Record t := mk {
  id : string;
  title : string;
  image : string;
  x : option number;
  y : option number;
  vx : option number;
  vy : option number
}.
Definition set_position (px py : option number) (d : t) : t :=
  mk (id d) (title d) (image d) px py (vx d) (vy d).
Definition set_velocity (pvx pvy : option number) (d : t) : t :=
  mk (id d) (title d) (image d) (x d) (y d) pvx pvy.
End Node.
Abbreviation Node := Node.t.

(** A pair [[a, b]] of numbers: a waypoint or a segment offset. *)
Abbreviation Pair := (number * number)%type (only parsing).

Module Link.
(** [source] and [target] are references to node objects: indices into the
    node store. [segmentOffsets] is attached after construction, and is
    [undefined] until then. *)
Record t := mk {
  source : nat;
  target : nat;
  segmentOffsets : option (list Pair)
}.
End Link.
Abbreviation Link := Link.t.

(** Sample 5-node necklace *)
Definition placeholder_node (k : string) : Node :=
  Node.mk ("n" +:+ k) ("Node " +:+ k) "https://placehold.co/60x60"
    None None None None.

Definition placeholderData : list Node :=
  map placeholder_node ["0"; "1"; "2"; "3"; "4"]%string.

(** ** The libraries the component calls *)

Class MathLib := {
  Math_cos : number -> number;
  Math_sin : number -> number;
  (** the value returned by the k-th call of [Math.random] *)
  Math_random : nat -> number;
  (** ECMAScript fixes these two values *)
  Math_cos_0 : Math_cos 0 = 1;
  Math_sin_0 : Math_sin 0 = 0
}.

Inductive Curve := curveLinear | curveCardinal.

Class D3 := {
  (** [d3.line().curve(c).x(d => d[0]).y(d => d[1])] applied to the points:
      the path data *)
  d3_line : Curve -> list Pair -> string;
  (** [d3.forceManyBody().strength(s)], [d3.forceCenter(cx, cy)] and
      [d3.forceCollide(r)], called with the current alpha: they update the
      node objects in place *)
  d3_forceManyBody : number -> number -> list Node -> list Node;
  d3_forceCenter : number -> number -> number -> list Node -> list Node;
  d3_forceCollide : number -> number -> list Node -> list Node;
  (** what [d3.forceSimulation(nodes)] does to the nodes it is given *)
  d3_initializeNodes : list Node -> list Node;
  (** the end of a tick of the simulation: the velocities decay and are
      added to the positions *)
  d3_integrate : list Node -> list Node;
  (** d3 writes to the node objects and leaves the array as it is *)
  d3_forceManyBody_length s a ns : length (d3_forceManyBody s a ns) = length ns;
  d3_forceCenter_length cx cy a ns :
    length (d3_forceCenter cx cy a ns) = length ns;
  d3_forceCollide_length r a ns : length (d3_forceCollide r a ns) = length ns;
  d3_initializeNodes_length ns : length (d3_initializeNodes ns) = length ns;
  d3_integrate_length ns : length (d3_integrate ns) = length ns
}.

(** ** multiSegmentWavyPathStable *)

Section Path.
Context {d3 : D3}.

(** The body of the loop at index [i]: the waypoint pushed to [points]. *)
Definition waypoint (source target : Node) (segments : Z) (i : nat)
    (offset : Pair) : Pair :=
  let t := number_of_nat i / number_of_Z segments in
  let '(offsetX, offsetY) := offset in
  let sx := ToNumber (Node.x source) in
  let sy := ToNumber (Node.y source) in
  let x := sx + (ToNumber (Node.x target) - sx) * t + offsetX in
  let y := sy + (ToNumber (Node.y target) - sy) * t + offsetY in
  (x, y).

(** [for (let i = ...; i <= segments; i++)] with [todo] iterations left.
    Destructuring [segmentOffsets[i]] throws when the index is out of
    range. *)
Fixpoint path_loop (source target : Node) (segmentOffsets : list Pair)
    (segments : Z) (todo : nat) (i : nat) (points : list Pair)
    : Completion (list Pair) :=
  match todo with
  | O => Normal points
  | S todo' =>
      match segmentOffsets !! i with
      | None => Throw TypeError
      | Some offset =>
          path_loop source target segmentOffsets segments todo' (S i)
            (points ++ [waypoint source target segments i offset])
      end
  end.

Definition path_points (source target : Node) (segmentOffsets : list Pair)
    : Completion (list Pair) :=
  let segments := (Z.of_nat (length segmentOffsets) - 1)%Z in
  path_loop source target segmentOffsets segments
    (Z.to_nat (segments + 1)) 0 [].

Definition multiSegmentWavyPathStable (source target : Node)
    (segmentOffsets : list Pair) : Completion string :=
  points ← path_points source target segmentOffsets;
  Normal (d3_line curveCardinal points).
End Path.

(** ** NecklaceGraph *)

Module Config.
Record t := mk {
  width : number;
  height : number;
  nodeSize : number;
  radiusFactor : number;
  collisionPadding : number;
  snapStrength : number;
  jitterStrength : number;
  (** an integer: it is the length of an array, less one *)
  numSegments : Z
}.
End Config.
Abbreviation Config := Config.t.

(** Dynamic configuration *)
Definition config : Config :=
  {| Config.width := 1200;
     Config.height := 1000;
     Config.nodeSize := 60;
     Config.radiusFactor := 0.4;
     Config.collisionPadding := 5;
     Config.snapStrength := 0.03;
     Config.jitterStrength := 0.01;
     Config.numSegments := 6 |}.

(** A circular target [{x, y}]. *)
Module Target.
Record t := mk { x : number; y : number }.
End Target.
Abbreviation Target := Target.t.

(** The state of a d3 force simulation: its cooling schedule and whether its
    timer is running. *)
Module Simulation.
Record t := mk {
  alpha : number;
  alphaMin : number;
  alphaDecay : number;
  alphaTarget : number;
  running : bool
}.
(** [simulation.alphaTarget(a)] *)
Definition set_alphaTarget (a : number) (s : t) : t :=
  mk (alpha s) (alphaMin s) (alphaDecay s) a (running s).
(** [simulation.stop()] *)
Definition stop (s : t) : t :=
  mk (alpha s) (alphaMin s) (alphaDecay s) (alphaTarget s) false.
End Simulation.
Abbreviation Simulation := Simulation.t.

(** The attributes the component sets on the SVG elements. *)
Module Dom.
Record t := mk {
  (** [x] and [y] of each image *)
  image_xy : list Pair;
  (** [x] and [y] of each label; undefined until the first tick *)
  label_xy : list (option Pair);
  (** [d] of each path; undefined until the first tick *)
  path_d : list (option string)
}.
End Dom.
Abbreviation Dom := Dom.t.

Section Setup.
Context {math : MathLib} {d3 : D3}.
Variable cfg : Config.

Definition nodeRadius : number := Config.nodeSize cfg / 2.

Definition radius : number :=
  Math_min (Config.width cfg) (Config.height cfg) * Config.radiusFactor cfg.

(** Compute circular targets *)
Definition targets (nodes : list Node) : list Target :=
  let n := length nodes in
  imap (fun i _ =>
    let angle := (number_of_nat i / number_of_nat n) * 2 * Math_PI in
    {| Target.x := Config.width cfg / 2 + radius * Math_cos angle;
       Target.y := Config.height cfg / 2 + radius * Math_sin angle |}) nodes.

(** Build links *)
Definition links (nodes : list Node) : list Link :=
  let n := length nodes in
  imap (fun i _ =>
    {| Link.source := i;
       Link.target := (i + 1) mod n;
       Link.segmentOffsets := None |}) nodes.

(** Initialize positions *)
Definition initialize_positions (targets : list Target) (nodes : list Node)
    : Completion (list Node) :=
  forEach (fun i node =>
    match targets !! i with
    | None => Throw TypeError
    | Some t =>
        Normal (Node.set_position (Some (Target.x t)) (Some (Target.y t)) node)
    end) nodes.

Definition maxOffset : number := 20.

(** [Array.from({ length }, fn)] creates an array of ToLength(length)
    elements, and throws a RangeError above 2^32 - 1. *)
Definition array_length (length : Z) : Completion nat :=
  if (4294967295 <? length)%Z then Throw RangeError
  else Normal (Z.to_nat length).

(** The [length] pairs of one link, the first of them drawn by calls [k]
    and [k + 1] of [Math.random]; with the number of the next call. *)
Fixpoint random_offsets (length : nat) (k : nat) : list Pair * nat :=
  match length with
  | O => ([], k)
  | S length' =>
      let offsetX := (Math_random k - 0.5) * maxOffset in
      let offsetY := (Math_random (S k) - 0.5) * maxOffset in
      let '(rest, k') := random_offsets length' (S (S k)) in
      ((offsetX, offsetY) :: rest, k')
  end.

(** Before the simulation, attach a small random offset to each link *)
Fixpoint attach_offsets (links : list Link) (k : nat)
    : Completion (list Link * nat) :=
  match links with
  | [] => Normal ([], k)
  | link :: links' =>
      let segments := Config.numSegments cfg in
      length ← array_length (segments + 1);
      let '(offsets, k') := random_offsets length k in
      rest ← attach_offsets links' k';
      Normal ({| Link.source := Link.source link;
                 Link.target := Link.target link;
                 Link.segmentOffsets := Some offsets |} :: fst rest,
              snd rest)
  end.

(** The "snap" force: Soft spring back to circular target. The callback
    ignores the alpha it is called with. *)
Definition snap (targets : list Target) (alpha : number)
    (nodes : list Node) : Completion (list Node) :=
  forEach (fun i node =>
    match targets !! i with
    | None => Throw TypeError
    | Some target =>
        let vx := or_zero (Node.vx node)
                  + (Target.x target - ToNumber (Node.x node))
                    * Config.snapStrength cfg in
        let vy := or_zero (Node.vy node)
                  + (Target.y target - ToNumber (Node.y node))
                    * Config.snapStrength cfg in
        Normal (Node.set_velocity (Some vx) (Some vy) node)
    end) nodes.

(** *** What the effect leaves behind: the variables its closures share *)

Record World := mkWorld {
  w_nodes : list Node;
  w_targets : list Target;
  w_links : list Link;
  w_simulation : Simulation;
  w_dom : Dom;
  (** the number of calls of [Math.random] so far *)
  w_random : nat;
  (** the React state [selected] *)
  w_selected : option nat
}.

(** The positions the images are given: [d.x - nodeRadius] *)
Definition image_position (d : Node) : Pair :=
  (ToNumber (Node.x d) - nodeRadius, ToNumber (Node.y d) - nodeRadius).

Definition label_position (d : Node) : Pair :=
  (ToNumber (Node.x d), ToNumber (Node.y d) - nodeRadius - 5).

(** Update paths (wavy links) *)
Definition link_path (nodes : list Node) (d : Link) : Completion string :=
  match nodes !! Link.source d, nodes !! Link.target d,
        Link.segmentOffsets d with
  | Some source, Some target, Some segmentOffsets =>
      multiSegmentWavyPathStable source target segmentOffsets
  | _, _, _ => Throw TypeError
  end.

Definition ticked (nodes : list Node) (links : list Link)
    : Completion Dom :=
  (* Update nodes *)
  let images := map image_position nodes in
  (* Update labels *)
  let labels := map (fun d => Some (label_position d)) nodes in
  (* Update paths (wavy links) *)
  paths ← forEach (fun _ d => Some <$> link_path nodes d) links;
  Normal {| Dom.image_xy := images;
            Dom.label_xy := labels;
            Dom.path_d := paths |}.

(** The body of [useEffect]. *)
Definition NecklaceGraph_effect (nodes : list Node) : Completion World :=
  let targets := targets nodes in
  let links := links nodes in
  nodes ← initialize_positions targets nodes;
  '(links, k) ← attach_offsets links 0;
  (* Simulation: alpha 1 and alphaDecay 0.001 are set by the component,
     alphaMin 0.001 and alphaTarget 0 are the defaults of d3 *)
  let nodes := d3_initializeNodes nodes in
  let simulation :=
    {| Simulation.alpha := 1;
       Simulation.alphaMin := 0.001;
       Simulation.alphaDecay := 0.001;
       Simulation.alphaTarget := 0;
       Simulation.running := true |} in
  Normal {| w_nodes := nodes;
            w_targets := targets;
            w_links := links;
            w_simulation := simulation;
            w_dom := {| Dom.image_xy := map image_position nodes;
                        Dom.label_xy := map (fun _ => None) nodes;
                        Dom.path_d := map (fun _ => None) links |};
            w_random := k;
            w_selected := None |}.

(** *** Events *)

Inductive Event :=
  | TimerFrame                          (* the timer of the simulation fires *)
  | DragStart (i : nat)                 (* d3-drag "start" on image i *)
  | Drag (i : nat) (x y : number)       (* d3-drag "drag", pointer at x, y *)
  | DragEnd (i : nat)                   (* d3-drag "end" *)
  | Click (i : nat)
  | Cleanup.                            (* the effect is torn down *)

(** One step of the simulation's timer, as d3-force documents it: alpha
    moves towards alphaTarget, the forces run in the order they were
    registered, the positions are integrated, "tick" is dispatched, and the
    timer stops once alpha is below alphaMin. *)
Definition simulation_step (w : World) : Completion World :=
  let s := w_simulation w in
  let alpha :=
    Simulation.alpha s
    + (Simulation.alphaTarget s - Simulation.alpha s)
      * Simulation.alphaDecay s in
  let nodes := d3_forceManyBody (-50) alpha (w_nodes w) in
  let nodes :=
    d3_forceCenter (Config.width cfg / 2) (Config.height cfg / 2) alpha
      nodes in
  let nodes :=
    d3_forceCollide (nodeRadius + Config.collisionPadding cfg) alpha nodes in
  nodes ← snap (w_targets w) alpha nodes;
  let nodes := d3_integrate nodes in
  dom ← ticked nodes (w_links w);
  Normal {| w_nodes := nodes;
            w_targets := w_targets w;
            w_links := w_links w;
            w_simulation :=
              {| Simulation.alpha := alpha;
                 Simulation.alphaMin := Simulation.alphaMin s;
                 Simulation.alphaDecay := Simulation.alphaDecay s;
                 Simulation.alphaTarget := Simulation.alphaTarget s;
                 Simulation.running :=
                   if alpha <? Simulation.alphaMin s then false
                   else Simulation.running s |};
            w_dom := dom;
            w_random := w_random w;
            w_selected := w_selected w |}.

Definition with_nodes (nodes : list Node) (w : World) : World :=
  mkWorld nodes (w_targets w) (w_links w) (w_simulation w) (w_dom w)
    (w_random w) (w_selected w).

Definition with_simulation (s : Simulation) (w : World) : World :=
  mkWorld (w_nodes w) (w_targets w) (w_links w) s (w_dom w) (w_random w)
    (w_selected w).

Definition with_selected (d : option nat) (w : World) : World :=
  mkWorld (w_nodes w) (w_targets w) (w_links w) (w_simulation w) (w_dom w)
    (w_random w) d.

(** The listeners the component registers. There is none for "start". *)
Definition handle (e : Event) (w : World) : Completion World :=
  match e with
  | TimerFrame =>
      if Simulation.running (w_simulation w) then simulation_step w
      else Normal w
  | DragStart _ => Normal w
  | Drag i x y =>
      Normal (with_nodes
                (alter (Node.set_position (Some x) (Some y)) i (w_nodes w)) w)
  | DragEnd _ =>
      Normal (with_simulation
                (Simulation.set_alphaTarget 0 (w_simulation w)) w)
  | Click i => Normal (with_selected (Some i) w)
  | Cleanup =>
      Normal (with_simulation (Simulation.stop (w_simulation w)) w)
  end.

Fixpoint run (events : list Event) (w : World) : Completion World :=
  match events with
  | [] => Normal w
  | e :: events' => w' ← handle e w; run events' w'
  end.
End Setup.

(** What the closures of the effect rely on: every node has its target, and
    every link has its offsets and two ends among the nodes. *)
Definition link_ok (n : nat) (l : Link) : Prop :=
  (Link.source l < n)%nat /\ (Link.target l < n)%nat
  /\ is_Some (Link.segmentOffsets l).

Definition well_formed (w : World) : Prop :=
  length (w_targets w) = length (w_nodes w)
  /\ Forall (link_ok (length (w_nodes w))) (w_links w).

(** What no event changes: the targets, the links, the count of random
    numbers and the number of nodes. *)
Definition same_setup (w w' : World) : Prop :=
  w_targets w' = w_targets w
  /\ w_links w' = w_links w
  /\ w_random w' = w_random w
  /\ length (w_nodes w') = length (w_nodes w).

(** The length of the offsets of a link: ToLength of [numSegments + 1]. *)
Definition offsets_length (cfg : Config) : nat :=
  Z.to_nat (Config.numSegments cfg + 1).

(** The component as it is written: the fixed configuration and the sample
    data. *)
Definition NecklaceGraph {math : MathLib} {d3 : D3} : Completion World :=
  NecklaceGraph_effect config placeholderData.

(** ** A stand-in for the libraries

    Small executable versions of [Math] and d3, to run the embedding on
    concrete inputs. Every theorem below holds for all instances of
    [MathLib] and [D3]; these two show that the classes are inhabited. *)

Module StandIn.
(** Taylor polynomials of degree 18 and 19, good on a turn around 0 *)
Definition cos (a : number) : number :=
  let q := a * a in
  1 - q / 2 * (1 - q / 12 * (1 - q / 30 * (1 - q / 56 * (1 - q / 90 *
    (1 - q / 132 * (1 - q / 182 * (1 - q / 240 * (1 - q / 306)))))))).
Definition sin (a : number) : number :=
  let q := a * a in
  a * (1 - q / 6 * (1 - q / 20 * (1 - q / 42 * (1 - q / 72 * (1 - q / 110 *
    (1 - q / 156 * (1 - q / 210 * (1 - q / 272 * (1 - q / 342))))))))).

(** A fixed sequence in [0, 1) *)
Definition random (k : nat) : number :=
  number_of_nat ((k * 37 + 11) mod 100) / 100.

Definition line (c : Curve) (points : list Pair) : string :=
  match c with
  | curveLinear => String.concat "L" (map (fun _ => "p"%string) points)
  | curveCardinal => String.concat "C" (map (fun _ => "p"%string) points)
  end.

Definition no_force (alpha : number) (nodes : list Node) : list Node := nodes.

Definition initializeNodes (nodes : list Node) : list Node :=
  map (fun d =>
    if is_nan (ToNumber (Node.vx d)) || is_nan (ToNumber (Node.vy d))
    then Node.set_velocity (Some 0) (Some 0) d else d) nodes.

Definition integrate (nodes : list Node) : list Node :=
  map (fun d =>
    let vx := ToNumber (Node.vx d) * 0.6 in
    let vy := ToNumber (Node.vy d) * 0.6 in
    Node.mk (Node.id d) (Node.title d) (Node.image d)
      (Some (ToNumber (Node.x d) + vx)) (Some (ToNumber (Node.y d) + vy))
      (Some vx) (Some vy)) nodes.

#[export] Instance math : MathLib :=
  {| Math_cos := cos; Math_sin := sin; Math_random := random;
     Math_cos_0 := eq_refl; Math_sin_0 := eq_refl |}.

#[export] Instance d3 : D3 :=
  {| d3_line := line;
     d3_forceManyBody := fun _ => no_force;
     d3_forceCenter := fun _ _ => no_force;
     d3_forceCollide := fun _ => no_force;
     d3_initializeNodes := initializeNodes;
     d3_integrate := integrate;
     d3_forceManyBody_length := fun _ _ _ => eq_refl;
     d3_forceCenter_length := fun _ _ _ _ => eq_refl;
     d3_forceCollide_length := fun _ _ _ => eq_refl;
     d3_initializeNodes_length := fun ns => length_map _ ns;
     d3_integrate_length := fun ns => length_map _ ns |}.
End StandIn.

(** Concrete inputs for the examples. *)
Module Sample.
Definition source : Node := Node.mk "a" "A" "" (Some 0) (Some 0) None None.
Definition target : Node := Node.mk "b" "B" "" (Some 10) (Some 20) None None.
Definition segmentOffsets : list Pair := [(1, 1); (2, -2); (3, 3)].

(** Two nodes and their targets: the first node sits on its target and
    moves, the second is away from its target and at rest. *)
Definition targets : list Target :=
  [Target.mk 1000 500; Target.mk 200 500].
Definition nodes : list Node :=
  [Node.mk "a" "A" "" (Some 1000) (Some 500) (Some 2) (Some (-1));
   Node.mk "b" "B" "" (Some 300) (Some 400) (Some 0) (Some 0)].

(** A configuration with no ring, no node size and no segment. *)
Definition degenerate_config : Config :=
  {| Config.width := 1200;
     Config.height := 1000;
     Config.nodeSize := 0;
     Config.radiusFactor := -1;
     Config.collisionPadding := 5;
     Config.snapStrength := 0.03;
     Config.jitterStrength := 0.01;
     Config.numSegments := -1 |}.

(** A world of these two nodes, with no link. *)
Definition world : World :=
  mkWorld nodes targets [] (Simulation.mk 1 0.001 0.001 0 true)
    (Dom.mk [] [] []) 0 None.

(** Two ticks around a drag of node 2 to the origin. *)
Definition events : list Event :=
  [TimerFrame; DragStart 2; Drag 2 0 0; TimerFrame; DragEnd 2].
End Sample.

(** ** Notions for the properties of the whole component *)

(** What a tick does to the simulation record: the part of
    [simulation_step] that does not look at the nodes. *)
Definition cool (s : Simulation) : Simulation :=
  let alpha :=
    Simulation.alpha s
    + (Simulation.alphaTarget s - Simulation.alpha s)
      * Simulation.alphaDecay s in
  {| Simulation.alpha := alpha;
     Simulation.alphaMin := Simulation.alphaMin s;
     Simulation.alphaDecay := Simulation.alphaDecay s;
     Simulation.alphaTarget := Simulation.alphaTarget s;
     Simulation.running :=
       if alpha <? Simulation.alphaMin s then false
       else Simulation.running s |}.

(** What an event does to the simulation record. *)
Definition simulation_after (e : Event) (s : Simulation) : Simulation :=
  match e with
  | TimerFrame => if Simulation.running s then cool s else s
  | DragEnd _ => Simulation.set_alphaTarget 0 s
  | Cleanup => Simulation.stop s
  | DragStart _ | Drag _ _ _ | Click _ => s
  end.

(** The simulation record the effect creates. *)
Definition initial_simulation : Simulation :=
  Simulation.mk 1 0.001 0.001 0 true.

Definition is_frame (e : Event) : bool :=
  match e with TimerFrame => true | _ => false end.

Definition is_cleanup (e : Event) : bool :=
  match e with Cleanup => true | _ => false end.

Definition is_click (e : Event) : bool :=
  match e with Click _ => true | _ => false end.

Definition is_drag (e : Event) : bool :=
  match e with Drag _ _ _ => true | _ => false end.

(** The number of ticks after which the simulation, as the effect creates
    it, falls below [alphaMin]. *)
Definition cooling_frames : nat := Z.to_nat 6905.

(** The number of timer frames among the events. *)
Fixpoint count_frames (events : list Event) : nat :=
  match events with
  | [] => 0
  | e :: events' =>
      if is_frame e then S (count_frames events') else count_frames events'
  end.

(** The simulation record after the events, one after the other. *)
Definition simulation_after_all (events : list Event) (s : Simulation)
    : Simulation :=
  fold_left (fun s e => simulation_after e s) events s.

(** The node reached from node [i] by following [k] links, each from its
    source to its target; link [i] is the one that leaves node [i]. *)
Fixpoint follow (ls : list Link) (k : nat) (i : nat) : option nat :=
  match k with
  | O => Some i
  | S k' =>
      match ls !! i with
      | Some l => follow ls k' (Link.target l)
      | None => None
      end
  end.

(** More concrete inputs. *)
Module Scenario.
(** A world whose simulation was stopped. *)
Definition stopped : World :=
  mkWorld Sample.nodes Sample.targets [] (Simulation.mk 0.5 0.001 0.001 0 false)
    (Dom.mk [(970, 470); (270, 370)] [None; None] []) 0 None.

(** A node that was never given a position. *)
Definition unplaced : list Node :=
  [Node.mk "a" "A" "" None None (Some 2) (Some (-1))].

Definition clicks_and_drags : list Event :=
  [Click 1; TimerFrame; Drag 2 0 0; Click 3; TimerFrame; DragEnd 2].

(** A configuration whose links would need 2^32 offsets each. *)
Definition oversized_config : Config :=
  {| Config.width := 1200;
     Config.height := 1000;
     Config.nodeSize := 60;
     Config.radiusFactor := 0.4;
     Config.collisionPadding := 5;
     Config.snapStrength := 0.03;
     Config.jitterStrength := 0.01;
     Config.numSegments := 4294967295 |}.
End Scenario.

(** * Properties *)

(** ** Numbers *)

Lemma mul_nan_r a : a * nan = nan.
Proof.
  apply Prim2SF_inj. rewrite mul_spec.
  change (Prim2SF nan) with S754_nan. by destruct (Prim2SF a).
Qed.

Lemma add_nan_r a : a + nan = nan.
Proof.
  apply Prim2SF_inj. rewrite add_spec.
  change (Prim2SF nan) with S754_nan. by destruct (Prim2SF a).
Qed.

Lemma add_nan_l a : nan + a = nan.
Proof. apply Prim2SF_inj. by rewrite add_spec. Qed.

Lemma sub_diag_finite a : finite a = true -> a - a = 0.
Proof.
  unfold finite. intros Ha. apply Prim2SF_inj. rewrite sub_spec.
  destruct (Prim2SF a) as [s|s| |s m e]; try discriminate.
  - by destruct s.
  - unfold SF64sub, SFsub. cbv zeta. by rewrite Z.sub_diag.
Qed.

Lemma mul_zero_finite s :
  finite s = true -> exists b, Prim2SF (0 * s) = S754_zero b.
Proof.
  unfold finite. intros Hs. rewrite mul_spec.
  change (Prim2SF 0) with (S754_zero false).
  destruct (Prim2SF s) as [b|b| |b m e]; try discriminate; cbn; eauto.
Qed.

(** A truthy number is neither a zero nor NaN. *)
Lemma ToBoolean_true a :
  ToBoolean a = true ->
  match Prim2SF a with
  | S754_zero _ | S754_nan => False
  | S754_infinity _ | S754_finite _ _ _ => True
  end.
Proof.
  unfold ToBoolean, is_nan. rewrite !FloatAxioms.eqb_spec.
  change (Prim2SF 0) with (S754_zero false).
  by destruct (Prim2SF a) as [b|b| |b m e].
Qed.

(** Adding a zero of either sign to [v || 0] leaves it as it is. *)
Lemma or_zero_add_zero v z b :
  Prim2SF z = S754_zero b -> or_zero v + z = or_zero v.
Proof.
  intros Hz. apply Prim2SF_inj. rewrite add_spec, Hz.
  destruct v as [a|]; cbn.
  - destruct (ToBoolean a) eqn:Ha.
    + apply ToBoolean_true in Ha.
      by destruct (Prim2SF a) as [c|c| |c m e].
    + change (Prim2SF 0) with (S754_zero false). by destruct b.
  - change (Prim2SF 0) with (S754_zero false). by destruct b.
Qed.

(** ** Loops *)

Lemma forEach_from_imap {A B} (f : nat -> A -> Completion B)
    (g : nat -> A -> B) (l : list A) :
  forall k,
    (forall i a, l !! i = Some a -> f (k + i)%nat a = Normal (g (k + i)%nat a)) ->
    forEach_from f k l = Normal (imap (fun i => g (k + i)%nat) l).
Proof.
  induction l as [|a l IH]; intros k Hf; [done|].
  cbn [forEach_from imap].
  pose proof (Hf 0%nat a eq_refl) as H0. rewrite Nat.add_0_r in H0.
  rewrite H0. cbn. rewrite (IH (S k)).
  - cbn. rewrite Nat.add_0_r. do 2 f_equal.
    apply imap_ext. intros i x _. cbn. f_equal. lia.
  - intros i x Hi. replace (S k + i)%nat with (k + S i)%nat by lia.
    by apply Hf.
Qed.

Lemma forEach_imap {A B} (f : nat -> A -> Completion B) (g : nat -> A -> B)
    (l : list A) :
  (forall i a, l !! i = Some a -> f i a = Normal (g i a)) ->
  forEach f l = Normal (imap g l).
Proof. intros Hf. by apply (forEach_from_imap f g l 0%nat). Qed.

Lemma forEach_from_total {A B} (f : nat -> A -> Completion B) (l : list A) :
  forall k,
    (forall i a, l !! i = Some a -> exists b, f (k + i)%nat a = Normal b) ->
    exists bs, forEach_from f k l = Normal bs /\ length bs = length l.
Proof.
  induction l as [|a l IH]; intros k Hf; [by exists []|].
  destruct (Hf 0%nat a eq_refl) as [b Hb]. rewrite Nat.add_0_r in Hb.
  destruct (IH (S k)) as (bs & Hbs & Hlen).
  { intros i x Hi. replace (S k + i)%nat with (k + S i)%nat by lia.
    by apply Hf. }
  exists (b :: bs). cbn [forEach_from]. rewrite Hb. cbn. rewrite Hbs. cbn.
  split; [done|]. by rewrite Hlen.
Qed.

(** ** The path of a link *)

Section PathProperties.
Context {d3 : D3}.
Variables source target : Node.

Lemma path_loop_imap (segmentOffsets : list Pair) (segments : Z) :
  forall todo i points,
    (i + todo <= length segmentOffsets)%nat ->
    path_loop source target segmentOffsets segments todo i points
    = Normal (points
              ++ imap (fun j => waypoint source target segments (i + j))
                   (take todo (drop i segmentOffsets))).
Proof.
  induction todo as [|todo IH]; intros i points Hlen.
  - cbn. by rewrite take_0, app_nil_r.
  - cbn [path_loop].
    destruct (lookup_lt_is_Some_2 segmentOffsets i) as [offset Hi]; [lia|].
    rewrite Hi, IH by lia.
    rewrite (drop_S _ _ _ Hi). cbn [take imap].
    rewrite <- app_assoc. cbn. rewrite Nat.add_0_r. do 3 f_equal.
    apply imap_ext. intros j x _. cbn. f_equal. lia.
Qed.

(** The loop visits every offset once, and never reads out of range. *)
Lemma path_points_imap (segmentOffsets : list Pair) :
  path_points source target segmentOffsets
  = Normal (imap (waypoint source target
                    (Z.of_nat (length segmentOffsets) - 1))
              segmentOffsets).
Proof.
  unfold path_points.
  replace (Z.to_nat (Z.of_nat (length segmentOffsets) - 1 + 1))
    with (length segmentOffsets) by lia.
  rewrite path_loop_imap by lia.
  by rewrite drop_0, firstn_all.
Qed.
End PathProperties.

(** ** Targets, links, initial positions and the snap force *)

Lemma targets_length {math : MathLib} cfg (nodes : list Node) :
  length (targets cfg nodes) = length nodes.
Proof. apply length_imap. Qed.

Lemma links_length (nodes : list Node) : length (links nodes) = length nodes.
Proof. apply length_imap. Qed.

Lemma links_lookup (nodes : list Node) (i : nat) (l : Link) :
  links nodes !! i = Some l ->
  (i < length nodes)%nat
  /\ l = Link.mk i ((i + 1) mod length nodes) None.
Proof.
  intros Hl. split.
  - apply lookup_lt_Some in Hl. by rewrite links_length in Hl.
  - revert Hl. unfold links. rewrite list_lookup_imap.
    destruct (nodes !! i); [|done]. by intros [= <-].
Qed.

(** With a target for every node, the loop over the nodes never throws. *)
Lemma initialize_positions_spec (targets : list Target) (nodes : list Node) :
  length targets = length nodes ->
  exists nodes',
    initialize_positions targets nodes = Normal nodes'
    /\ length nodes' = length nodes
    /\ forall i d',
         nodes' !! i = Some d' ->
         exists d t,
           nodes !! i = Some d /\ targets !! i = Some t
           /\ d' = Node.set_position (Some (Target.x t)) (Some (Target.y t)) d.
Proof.
  intros Hlen.
  set (place := fun (i : nat) (d : Node) =>
    match targets !! i with
    | Some t => Node.set_position (Some (Target.x t)) (Some (Target.y t)) d
    | None => d
    end).
  exists (imap place nodes). split; [|split].
  - apply forEach_imap. intros i d Hi. unfold place.
    destruct (lookup_lt_is_Some_2 targets i) as [t ->]; [|done].
    rewrite Hlen. by eapply lookup_lt_Some.
  - apply length_imap.
  - intros i d'. rewrite list_lookup_imap.
    destruct (nodes !! i) as [d|] eqn:Hi; [|done].
    intros [= <-]. unfold place.
    destruct (lookup_lt_is_Some_2 targets i) as [t Ht].
    { rewrite Hlen. by eapply lookup_lt_Some. }
    rewrite Ht. by exists d, t.
Qed.

Lemma snap_spec (cfg : Config) (targets : list Target) (nodes : list Node) :
  length targets = length nodes ->
  exists nodes',
    (forall alpha, snap cfg targets alpha nodes = Normal nodes')
    /\ length nodes' = length nodes
    /\ forall i d t,
         nodes !! i = Some d ->
         targets !! i = Some t ->
         nodes' !! i
         = Some (Node.set_velocity
                   (Some (or_zero (Node.vx d)
                          + (Target.x t - ToNumber (Node.x d))
                            * Config.snapStrength cfg))
                   (Some (or_zero (Node.vy d)
                          + (Target.y t - ToNumber (Node.y d))
                            * Config.snapStrength cfg)) d).
Proof.
  intros Hlen.
  set (spring := fun (i : nat) (d : Node) =>
    match targets !! i with
    | Some t =>
        Node.set_velocity
          (Some (or_zero (Node.vx d)
                 + (Target.x t - ToNumber (Node.x d))
                   * Config.snapStrength cfg))
          (Some (or_zero (Node.vy d)
                 + (Target.y t - ToNumber (Node.y d))
                   * Config.snapStrength cfg)) d
    | None => d
    end).
  exists (imap spring nodes). split; [|split].
  - intros alpha. apply forEach_imap. intros i d Hi. unfold spring.
    destruct (lookup_lt_is_Some_2 targets i) as [t ->]; [|done].
    rewrite Hlen. by eapply lookup_lt_Some.
  - apply length_imap.
  - intros i d t Hd Ht. rewrite list_lookup_imap, Hd. cbn.
    unfold spring. by rewrite Ht.
Qed.

(** ** The effect and the events after it *)

Section EffectProperties.
Context {math : MathLib} {d3 : D3}.
Variable cfg : Config.

Lemma random_offsets_spec (n : nat) :
  forall k,
    length (random_offsets n k).1 = n
    /\ (random_offsets n k).2 = (k + 2 * n)%nat.
Proof.
  induction n as [|n IH]; intros k; [cbn; split; [done|lia]|].
  cbn [random_offsets]. destruct (IH (S (S k))) as [Hlen Hk].
  destruct (random_offsets n (S (S k))) as [rest k']. cbn in *.
  split; [by rewrite Hlen|lia].
Qed.

(** Below the bound of [Array.from], every link gets its offsets, and the
    calls of [Math.random] are counted link after link. *)
Lemma attach_offsets_spec (ls : list Link) :
  (Config.numSegments cfg < 4294967295)%Z ->
  forall k,
    attach_offsets cfg ls k
    = Normal
        (imap (fun i l =>
                 Link.mk (Link.source l) (Link.target l)
                   (Some (random_offsets (offsets_length cfg)
                            (k + 2 * offsets_length cfg * i)).1)) ls,
         (k + 2 * offsets_length cfg * length ls)%nat).
Proof.
  intros Hseg. induction ls as [|l ls IH]; intros k.
  - cbn. do 2 f_equal. lia.
  - cbn [attach_offsets]. unfold array_length.
    destruct (Z.ltb_spec 4294967295 (Config.numSegments cfg + 1)); [lia|].
    unfold mbind, Completion_bind; cbv beta iota.
    change (Z.to_nat (Config.numSegments cfg + 1)) with (offsets_length cfg).
    pose proof (random_offsets_spec (offsets_length cfg) k) as [_ Hk].
    destruct (random_offsets (offsets_length cfg) k) as [offsets k'] eqn:Hro.
    cbn [snd] in Hk. subst k'. rewrite IH. cbn [imap fst snd length].
    rewrite Nat.mul_0_r, Nat.add_0_r, Hro. cbn [fst]. f_equal. f_equal.
    + f_equal. apply imap_ext. intros i x _. cbv beta. unfold compose.
      do 4 f_equal. lia.
    + lia.
Qed.

(** Without a length above 2^32 - 1 for [Array.from], the effect
    completes. *)
Lemma NecklaceGraph_effect_completes (nodes : list Node) :
  (Config.numSegments cfg < 4294967295)%Z ->
  exists w,
    NecklaceGraph_effect cfg nodes = Normal w
    /\ length (w_nodes w) = length nodes
    /\ w_targets w = targets cfg nodes
    /\ w_links w
       = imap (fun i l =>
                 Link.mk (Link.source l) (Link.target l)
                   (Some (random_offsets (offsets_length cfg)
                            (2 * offsets_length cfg * i)).1)) (links nodes)
    /\ w_random w = (2 * offsets_length cfg * length nodes)%nat
    /\ w_simulation w = Simulation.mk 1 0.001 0.001 0 true.
Proof.
  intros Hseg.
  destruct (initialize_positions_spec (targets cfg nodes) nodes)
    as (nodes' & Hinit & Hlen & _); [apply targets_length|].
  unfold NecklaceGraph_effect. rewrite Hinit. cbn.
  rewrite (attach_offsets_spec _ Hseg). cbn.
  eexists. split; [reflexivity|]. cbn.
  rewrite d3_initializeNodes_length, links_length. done.
Qed.

Lemma attach_offsets_link_ok (n : nat) (ls : list Link) :
  Forall (fun l => (Link.source l < n)%nat /\ (Link.target l < n)%nat) ls ->
  forall k ls' k',
    attach_offsets cfg ls k = Normal (ls', k') -> Forall (link_ok n) ls'.
Proof.
  induction 1 as [|l ls [Hs Ht] _ IH]; intros k ls' k' Hat.
  - cbn in Hat. injection Hat as <- <-. constructor.
  - cbn [attach_offsets] in Hat.
    destruct (array_length (Config.numSegments cfg + 1)) as [m|e];
      cbn in Hat; [|done].
    destruct (random_offsets m k) as [offsets k1].
    destruct (attach_offsets cfg ls k1) as [[ls1 k2]|e] eqn:Hrest;
      cbn in Hat; [|done].
    injection Hat as <- <-. constructor; [|by eapply IH].
    by repeat split.
Qed.

Lemma NecklaceGraph_effect_well_formed (nodes : list Node) (w : World) :
  NecklaceGraph_effect cfg nodes = Normal w -> well_formed w.
Proof.
  destruct (initialize_positions_spec (targets cfg nodes) nodes)
    as (nodes' & Hinit & Hlen & _); [apply targets_length|].
  unfold NecklaceGraph_effect. rewrite Hinit. cbn.
  destruct (attach_offsets cfg (links nodes) 0) as [[ls k]|e] eqn:Hat;
    cbn; [|done].
  intros [= <-]. split; cbn.
  - by rewrite d3_initializeNodes_length, targets_length.
  - rewrite d3_initializeNodes_length, Hlen.
    eapply attach_offsets_link_ok; [|exact Hat].
    apply Forall_lookup. intros i l Hl.
    destruct (links_lookup nodes i l Hl) as [Hi ->]. cbn.
    split; [done|]. apply Nat.mod_upper_bound. lia.
Qed.

Lemma link_path_total (nodes : list Node) (l : Link) :
  link_ok (length nodes) l -> exists d, link_path nodes l = Normal d.
Proof.
  intros (Hs & Ht & [offsets Ho]). unfold link_path.
  destruct (lookup_lt_is_Some_2 nodes _ Hs) as [source ->].
  destruct (lookup_lt_is_Some_2 nodes _ Ht) as [target ->].
  rewrite Ho. unfold multiSegmentWavyPathStable.
  rewrite path_points_imap. cbn. eauto.
Qed.

Lemma ticked_total (nodes : list Node) (ls : list Link) :
  Forall (link_ok (length nodes)) ls ->
  exists dom, ticked cfg nodes ls = Normal dom.
Proof.
  intros Hls. unfold ticked, forEach.
  edestruct (forEach_from_total
    (fun (_ : nat) d => Some <$> link_path nodes d) ls 0%nat)
    as (paths & -> & _); [|cbn; eauto].
  intros i l Hl. rewrite Forall_lookup in Hls.
  destruct (link_path_total nodes l (Hls i l Hl)) as [d ->]. cbn. eauto.
Qed.

(** A tick completes in a well-formed world, with the alpha that d3
    computes. *)
Lemma simulation_step_total (w : World) :
  well_formed w ->
  exists w',
    simulation_step cfg w = Normal w'
    /\ same_setup w w'
    /\ Simulation.alpha (w_simulation w')
       = Simulation.alpha (w_simulation w)
         + (Simulation.alphaTarget (w_simulation w)
            - Simulation.alpha (w_simulation w))
           * Simulation.alphaDecay (w_simulation w).
Proof.
  intros [Hlen Hls]. unfold simulation_step.
  set (alpha := Simulation.alpha (w_simulation w) + _ * _).
  set (nodes3 := d3_forceCollide _ alpha _).
  assert (Hn3 : length nodes3 = length (w_nodes w)).
  { unfold nodes3.
    by rewrite d3_forceCollide_length, d3_forceCenter_length,
      d3_forceManyBody_length. }
  destruct (snap_spec cfg (w_targets w) nodes3)
    as (nodes4 & Hsnap & Hn4 & _); [congruence|].
  rewrite Hsnap. cbn.
  destruct (ticked_total (d3_integrate nodes4) (w_links w)) as [dom ->].
  { by rewrite d3_integrate_length, Hn4, Hn3. }
  cbn. eexists. split; [reflexivity|]. split; [|done].
  repeat split; cbn. by rewrite d3_integrate_length, Hn4, Hn3.
Qed.

Lemma same_setup_well_formed (w w' : World) :
  same_setup w w' -> well_formed w -> well_formed w'.
Proof.
  intros (Ht & Hl & _ & Hn) [Hlen Hls]. split.
  - congruence.
  - by rewrite Hl, Hn.
Qed.

Lemma handle_total (e : Event) (w : World) :
  well_formed w ->
  exists w', handle cfg e w = Normal w' /\ same_setup w w'.
Proof.
  intros Hw. destruct e as [|i|i x y|i|i|]; cbn.
  - destruct (Simulation.running (w_simulation w)).
    + destruct (simulation_step_total w Hw) as (w' & Hstep & Hsame & _).
      by exists w'.
    + by exists w.
  - by exists w.
  - eexists. split; [reflexivity|]. repeat split; cbn.
    apply length_alter.
  - eexists. split; [reflexivity|]. by repeat split.
  - eexists. split; [reflexivity|]. by repeat split.
  - eexists. split; [reflexivity|]. by repeat split.
Qed.

(** Events never throw after the effect, and leave the targets, the
    links and the count of random numbers as they are. *)
Lemma run_total (events : list Event) :
  forall w,
    well_formed w ->
    exists w', run cfg events w = Normal w' /\ same_setup w w'.
Proof.
  induction events as [|e events IH]; intros w Hw.
  - by exists w.
  - destruct (handle_total e w Hw) as (w1 & He & Hs1).
    destruct (IH w1 (same_setup_well_formed _ _ Hs1 Hw))
      as (w2 & Hrun & Hs2).
    exists w2. cbn [run]. rewrite He. cbn. split; [exact Hrun|].
    destruct Hs1 as (? & ? & ? & ?), Hs2 as (? & ? & ? & ?).
    repeat split; congruence.
Qed.
End EffectProperties.

(** * The claims *)

(** C1. With at least two nodes, target [i] lies on the circle of centre
    [(cx, cy) = (width / 2, height / 2)] and radius
    [r = min(width, height) * radiusFactor], at the angle [2 pi i / n], which
    the code computes as [(i / n) * 2 * Math.PI]. In particular, with five
    nodes, centre (600, 500) and radius 400, target 0 is (1000, 500) and
    target 1 is at 72 degrees. *)
Theorem targets_on_circle {math : MathLib} (cfg : Config)
    (nodes : list Node) :
  let n := length nodes in
  let cx := Config.width cfg / 2 in
  let cy := Config.height cfg / 2 in
  let r :=
    Math_min (Config.width cfg) (Config.height cfg) * Config.radiusFactor cfg in
  (2 <= n)%nat ->
  (forall i, (i < n)%nat ->
     let angle := number_of_nat i / number_of_nat n * 2 * Math_PI in
     targets cfg nodes !! i
     = Some {| Target.x := cx + r * Math_cos angle;
               Target.y := cy + r * Math_sin angle |})
  /\ (n = 5%nat -> cx = 600 -> cy = 500 -> r = 400 ->
      let degrees72 := 72 * Math_PI / 180 in
      targets cfg nodes !! 0%nat = Some {| Target.x := 1000; Target.y := 500 |}
      /\ targets cfg nodes !! 1%nat
         = Some {| Target.x := 600 + 400 * Math_cos degrees72;
                   Target.y := 500 + 400 * Math_sin degrees72 |}).
Proof.
  intros n cx cy r Hn.
  assert (Hall : forall i, (i < n)%nat ->
     targets cfg nodes !! i
     = Some {| Target.x :=
                 cx + r * Math_cos (number_of_nat i / number_of_nat n * 2
                                    * Math_PI);
               Target.y :=
                 cy + r * Math_sin (number_of_nat i / number_of_nat n * 2
                                    * Math_PI) |}).
  { intros i Hi. unfold targets. rewrite list_lookup_imap.
    destruct (lookup_lt_is_Some_2 nodes i Hi) as [d ->]. done. }
  split; [exact Hall|].
  intros Hn5 Hcx Hcy Hr degrees72.
  rewrite !Hall by lia. rewrite Hn5, Hcx, Hcy, Hr.
  change (number_of_nat 0 / number_of_nat 5 * 2 * Math_PI) with 0.
  change (number_of_nat 1 / number_of_nat 5 * 2 * Math_PI) with degrees72.
  by rewrite Math_cos_0, Math_sin_0.
Qed.

Lemma targets_on_circle_witness :
  (2 <= length placeholderData)%nat
  /\ targets (math := StandIn.math) config placeholderData !! 0%nat
     = Some {| Target.x := 1000; Target.y := 500 |}
  /\ targets (math := StandIn.math) config placeholderData !! 1%nat
     = Some {| Target.x := 600 + 400 * StandIn.cos (72 * Math_PI / 180);
               Target.y := 500 + 400 * StandIn.sin (72 * Math_PI / 180) |}.
Proof.
  assert (Hn : (2 <= length placeholderData)%nat) by (cbn; lia).
  split; [exact Hn|].
  exact (proj2 (targets_on_circle (math := StandIn.math) config
                  placeholderData Hn)
           eq_refl eq_refl eq_refl eq_refl).
Defined.

(** C2. The snap force completes on every node list that has its targets,
    and adds [(target - position) * snapStrength] to the velocity of each
    node ([undefined], NaN and zero velocities count as 0), whatever alpha
    it is called with; positions are left alone. A node on its (finite)
    target keeps its velocity: the delta is zero. *)
Theorem snap_adds_spring (cfg : Config) (targets : list Target)
    (alpha : number) (nodes : list Node) :
  length targets = length nodes ->
  exists nodes',
    snap cfg targets alpha nodes = Normal nodes'
    /\ (forall alpha', snap cfg targets alpha' nodes = Normal nodes')
    /\ length nodes' = length nodes
    /\ forall i d t,
         nodes !! i = Some d ->
         targets !! i = Some t ->
         exists d',
           nodes' !! i = Some d'
           /\ Node.vx d'
              = Some (or_zero (Node.vx d)
                      + (Target.x t - ToNumber (Node.x d))
                        * Config.snapStrength cfg)
           /\ Node.vy d'
              = Some (or_zero (Node.vy d)
                      + (Target.y t - ToNumber (Node.y d))
                        * Config.snapStrength cfg)
           /\ Node.x d' = Node.x d
           /\ Node.y d' = Node.y d
           /\ (Node.x d = Some (Target.x t) ->
               Node.y d = Some (Target.y t) ->
               finite (Target.x t) = true ->
               finite (Target.y t) = true ->
               finite (Config.snapStrength cfg) = true ->
               Node.vx d' = Some (or_zero (Node.vx d))
               /\ Node.vy d' = Some (or_zero (Node.vy d))).
Proof.
  intros Hlen.
  destruct (snap_spec cfg targets nodes Hlen) as (nodes' & Hsnap & Hn & Hnode).
  exists nodes'. split; [apply Hsnap|]. split; [exact Hsnap|].
  split; [exact Hn|].
  intros i d t Hd Ht. eexists. split; [exact (Hnode i d t Hd Ht)|].
  cbn. do 4 (split; [done|]).
  intros Hx Hy Hfx Hfy Hfs. rewrite Hx, Hy. cbn.
  rewrite !sub_diag_finite by done.
  destruct (mul_zero_finite _ Hfs) as [b Hb].
  by rewrite (or_zero_add_zero _ _ b Hb), (or_zero_add_zero _ _ b Hb).
Qed.

Lemma snap_adds_spring_witness :
  length Sample.targets = length Sample.nodes
  /\ exists nodes' a b,
       snap config Sample.targets 1 Sample.nodes = Normal nodes'
       /\ snap config Sample.targets 0.5 Sample.nodes = Normal nodes'
       /\ nodes' !! 0%nat = Some a
       /\ Node.vx a = Some 2 /\ Node.vy a = Some (-1)
       /\ nodes' !! 1%nat = Some b
       /\ Node.vx b = Some (0 + (200 - 300) * 0.03)
       /\ Node.vy b = Some (0 + (500 - 400) * 0.03).
Proof.
  split; [reflexivity|].
  destruct (snap_adds_spring config Sample.targets 1 Sample.nodes eq_refl)
    as (nodes' & Hsnap & Halpha & _ & Hnode).
  destruct (Hnode 0%nat _ _ eq_refl eq_refl)
    as (a & Ha & _ & _ & _ & _ & Hfixed).
  destruct (Hfixed eq_refl eq_refl eq_refl eq_refl eq_refl) as [Hvx Hvy].
  destruct (Hnode 1%nat _ _ eq_refl eq_refl)
    as (b & Hb & Hbx & Hby & _).
  exists nodes', a, b.
  split; [exact Hsnap|]. split; [apply Halpha|].
  split; [exact Ha|]. split; [exact Hvx|]. split; [exact Hvy|].
  split; [exact Hb|]. split; [exact Hbx|exact Hby].
Defined.

(** C3. With at least one segment ([segments = segmentOffsets.length - 1]
    is at least 1) the path is the cardinal spline of d3 through
    [segments + 1] waypoints, and waypoint [i] is the linear interpolation
    between the source and the target at [t = i / segments], plus the i-th
    offset. *)
Theorem multiSegmentWavyPathStable_waypoints {d3 : D3} (source target : Node)
    (segmentOffsets : list Pair) :
  let segments := (Z.of_nat (length segmentOffsets) - 1)%Z in
  (1 <= segments)%Z ->
  exists points,
    multiSegmentWavyPathStable source target segmentOffsets
    = Normal (d3_line curveCardinal points)
    /\ Z.of_nat (length points) = (segments + 1)%Z
    /\ forall i offset,
         segmentOffsets !! i = Some offset ->
         let t := number_of_nat i / number_of_Z segments in
         let sx := ToNumber (Node.x source) in
         let sy := ToNumber (Node.y source) in
         let tx := ToNumber (Node.x target) in
         let ty := ToNumber (Node.y target) in
         points !! i
         = Some (sx + (tx - sx) * t + offset.1, sy + (ty - sy) * t + offset.2).
Proof.
  intros segments _.
  exists (imap (waypoint source target segments) segmentOffsets).
  split; [|split].
  - unfold multiSegmentWavyPathStable. by rewrite path_points_imap.
  - rewrite length_imap. lia.
  - intros i [offsetX offsetY] Hi. cbn zeta.
    by rewrite list_lookup_imap, Hi.
Qed.

Lemma multiSegmentWavyPathStable_waypoints_witness :
  (1 <= Z.of_nat (length Sample.segmentOffsets) - 1)%Z
  /\ exists points,
       multiSegmentWavyPathStable (d3 := StandIn.d3) Sample.source
         Sample.target Sample.segmentOffsets
       = Normal (d3_line (D3 := StandIn.d3) curveCardinal points)
       /\ points !! 1%nat = Some (7, 8).
Proof.
  assert (Hseg : (1 <= Z.of_nat (length Sample.segmentOffsets) - 1)%Z)
    by (vm_compute; discriminate).
  split; [exact Hseg|].
  destruct (multiSegmentWavyPathStable_waypoints (d3 := StandIn.d3)
              Sample.source Sample.target Sample.segmentOffsets Hseg)
    as (points & Hp & _ & Hw).
  exists points. split; [exact Hp|].
  exact (Hw 1%nat (2, -2) eq_refl).
Defined.

(** C4. With a configuration whose [numSegments] is a valid count, the
    effect completes; every link carries [numSegments + 1] offsets, drawn by
    [2 * (numSegments + 1)] calls of [Math.random] per link; and whatever
    events follow (ticks, drags, clicks), they all complete and leave the
    links, offsets included, and the count of random calls as they were. *)
Theorem segmentOffsets_stable {math : MathLib} {d3 : D3} (cfg : Config)
    (nodes : list Node) :
  (0 <= Config.numSegments cfg < 4294967295)%Z ->
  exists w,
    NecklaceGraph_effect cfg nodes = Normal w
    /\ length (w_links w) = length nodes
    /\ Forall (fun l =>
                 exists offsets,
                   Link.segmentOffsets l = Some offsets
                   /\ Z.of_nat (length offsets)
                      = (Config.numSegments cfg + 1)%Z) (w_links w)
    /\ Z.of_nat (w_random w)
       = (2 * (Config.numSegments cfg + 1) * Z.of_nat (length nodes))%Z
    /\ forall events,
         exists w',
           run cfg events w = Normal w'
           /\ w_links w' = w_links w
           /\ w_random w' = w_random w.
Proof.
  intros [Hlo Hhi].
  destruct (NecklaceGraph_effect_completes cfg nodes Hhi)
    as (w & Hw & _ & _ & Hlinks & Hrandom & _).
  exists w. split; [exact Hw|]. split; [|split; [|split]].
  - by rewrite Hlinks, length_imap, links_length.
  - rewrite Hlinks. apply Forall_lookup. intros i l.
    rewrite list_lookup_imap. destruct (links nodes !! i); [|done].
    intros [= <-]. eexists. split; [reflexivity|].
    rewrite (proj1 (random_offsets_spec _ _)). unfold offsets_length. lia.
  - rewrite Hrandom. unfold offsets_length. lia.
  - intros events.
    destruct (run_total cfg events w
                (NecklaceGraph_effect_well_formed cfg nodes w Hw))
      as (w' & Hrun & _ & Hl & Hr & _).
    by exists w'.
Qed.

Lemma segmentOffsets_stable_witness :
  (0 <= Config.numSegments config < 4294967295)%Z
  /\ exists w w',
       NecklaceGraph (math := StandIn.math) (d3 := StandIn.d3) = Normal w
       /\ length (w_links w) = 5%nat
       /\ w_random w = 70%nat
       /\ run (d3 := StandIn.d3) config Sample.events w = Normal w'
       /\ w_links w' = w_links w
       /\ w_random w' = w_random w.
Proof.
  assert (Hseg : (0 <= Config.numSegments config < 4294967295)%Z)
    by (cbn; lia).
  split; [exact Hseg|].
  destruct (segmentOffsets_stable (math := StandIn.math) (d3 := StandIn.d3)
              config placeholderData Hseg)
    as (w & Hw & Hlen & _ & Hrandom & Hrun).
  destruct (Hrun Sample.events) as (w' & Hw' & Hlinks & Hrandom').
  exists w, w'. split; [exact Hw|]. split; [exact Hlen|].
  split; [|by repeat split].
  apply Nat2Z.inj. rewrite Hrandom. reflexivity.
Defined.

(** C5, as the code has it. The effect validates nothing: whatever
    [radiusFactor], [nodeSize] and the other numbers are, and for every
    [numSegments] below 2^32 - 1, negative ones included, it completes with
    the simulation running at alpha 1, and the next timer frame runs a
    tick. *)
Theorem NecklaceGraph_effect_never_rejects {math : MathLib} {d3 : D3}
    (cfg : Config) (nodes : list Node) :
  (Config.numSegments cfg < 4294967295)%Z ->
  exists w w',
    NecklaceGraph_effect cfg nodes = Normal w
    /\ Simulation.running (w_simulation w) = true
    /\ Simulation.alpha (w_simulation w) = 1
    /\ handle cfg TimerFrame w = Normal w'
    /\ Simulation.alpha (w_simulation w') = 1 + (0 - 1) * 0.001.
Proof.
  intros Hseg.
  destruct (NecklaceGraph_effect_completes cfg nodes Hseg)
    as (w & Hw & _ & _ & _ & _ & Hsim).
  pose proof (NecklaceGraph_effect_well_formed cfg nodes w Hw) as Hwf.
  destruct (simulation_step_total cfg w Hwf) as (w' & Hstep & _ & Halpha).
  exists w, w'. split; [exact Hw|]. cbn [handle].
  rewrite Halpha, Hsim. cbn [Simulation.running Simulation.alpha
    Simulation.alphaTarget Simulation.alphaDecay].
  by repeat split.
Qed.

Lemma NecklaceGraph_effect_never_rejects_witness :
  (Config.numSegments Sample.degenerate_config < 4294967295)%Z
  /\ exists w w',
       NecklaceGraph_effect (math := StandIn.math) (d3 := StandIn.d3)
         Sample.degenerate_config placeholderData = Normal w
       /\ Simulation.running (w_simulation w) = true
       /\ handle (d3 := StandIn.d3) Sample.degenerate_config TimerFrame w
          = Normal w'.
Proof.
  assert (Hseg : (Config.numSegments Sample.degenerate_config
                  < 4294967295)%Z) by (cbn; lia).
  split; [exact Hseg|].
  destruct (NecklaceGraph_effect_never_rejects (math := StandIn.math)
              (d3 := StandIn.d3) Sample.degenerate_config placeholderData Hseg)
    as (w & w' & Hw & Hrunning & _ & Hstep & _).
  by exists w, w'.
Defined.

(** C5 fails: a configuration with [radiusFactor <= 0], [nodeSize <= 0] and
    [numSegments < 0], whose ring radius is not positive, is not rejected.
    The effect completes, the simulation runs, and a tick is run. *)
Lemma degenerate_config_starts :
  (Config.radiusFactor Sample.degenerate_config <=? 0) = true
  /\ (Config.nodeSize Sample.degenerate_config <=? 0) = true
  /\ (Config.numSegments Sample.degenerate_config < 0)%Z
  /\ (radius Sample.degenerate_config <=? 0) = true
  /\ exists w w',
       NecklaceGraph_effect (math := StandIn.math) (d3 := StandIn.d3)
         Sample.degenerate_config placeholderData = Normal w
       /\ Simulation.running (w_simulation w) = true
       /\ run (d3 := StandIn.d3) Sample.degenerate_config [TimerFrame] w
          = Normal w'
       /\ (Simulation.alpha (w_simulation w') <? 1) = true.
Proof.
  split; [reflexivity|]. split; [reflexivity|]. split; [cbn; lia|].
  split; [reflexivity|].
  eexists. eexists. split; [vm_compute; reflexivity|].
  split; [reflexivity|]. split; [vm_compute; reflexivity|]. reflexivity.
Qed.

(** C6, as the code has it. Link synthesis makes exactly one link per node,
    from node [i] to node [(i + 1) mod n], whatever [n] is: no link for an
    empty node set, and for a single node one link from the node to
    itself. *)
Theorem links_ring (nodes : list Node) :
  let n := length nodes in
  length (links nodes) = n
  /\ (forall i l,
        links nodes !! i = Some l ->
        Link.source l = i /\ Link.target l = ((i + 1) mod n)%nat)
  /\ (n = 0%nat -> links nodes = [])
  /\ (n = 1%nat -> links nodes = [Link.mk 0 0 None]).
Proof.
  intros n. split; [apply links_length|]. split; [|split].
  - intros i l Hl. by destruct (links_lookup nodes i l Hl) as [_ ->].
  - intros Hn. by destruct nodes.
  - intros Hn. by destruct nodes as [|d [|d' nodes]].
Qed.

(** C6 fails for a single node: the effect builds one link, and it joins
    node 0 to itself. *)
Lemma single_node_self_link :
  exists w l,
    NecklaceGraph_effect (math := StandIn.math) (d3 := StandIn.d3) config
      [placeholder_node "0"] = Normal w
    /\ (length [placeholder_node "0"] <= 1)%nat
    /\ w_links w = [l]
    /\ Link.source l = 0%nat
    /\ Link.target l = 0%nat.
Proof.
  eexists. eexists. split; [vm_compute; reflexivity|].
  split; [cbn; lia|]. split; [reflexivity|]. split; reflexivity.
Qed.

(** C7, what the code does. No listener is registered for the "start" of a
    drag: after the effect, a drag start leaves the whole state as it is, and
    [alphaTarget] stays at 0 instead of being raised. Only the "end" of a
    drag writes [alphaTarget], and it writes 0. *)
Theorem drag_start_leaves_alphaTarget {math : MathLib} {d3 : D3}
    (cfg : Config) (nodes : list Node) (w : World) (i : nat) :
  NecklaceGraph_effect cfg nodes = Normal w ->
  handle cfg (DragStart i) w = Normal w
  /\ Simulation.alphaTarget (w_simulation w) = 0
  /\ (forall x y,
        exists w',
          handle cfg (Drag i x y) w = Normal w'
          /\ w_simulation w' = w_simulation w)
  /\ exists w',
       handle cfg (DragEnd i) w = Normal w'
       /\ Simulation.alphaTarget (w_simulation w') = 0.
Proof.
  intros Hw. split; [done|]. split; [|split].
  - revert Hw. unfold NecklaceGraph_effect.
    destruct (initialize_positions _ _) as [nodes'|e]; cbn; [|done].
    destruct (attach_offsets _ _ _) as [[ls k]|e]; cbn; [|done].
    by intros [= <-].
  - intros x y. eexists. split; reflexivity.
  - eexists. split; reflexivity.
Qed.

Lemma drag_start_leaves_alphaTarget_witness :
  exists w w',
    NecklaceGraph (math := StandIn.math) (d3 := StandIn.d3) = Normal w
    /\ run (d3 := StandIn.d3) config [DragStart 2] w = Normal w'
    /\ (0 <? Simulation.alphaTarget (w_simulation w')) = false.
Proof.
  destruct (NecklaceGraph_effect_completes (math := StandIn.math)
              (d3 := StandIn.d3) config placeholderData)
    as (w & Hw & _); [cbn; lia|].
  destruct (drag_start_leaves_alphaTarget (math := StandIn.math)
              (d3 := StandIn.d3) config placeholderData w 2 Hw)
    as (Hstart & Htarget & _).
  exists w, w. split; [exact Hw|]. cbn [run]. rewrite Hstart. cbn.
  split; [reflexivity|]. by rewrite Htarget.
Defined.

(** C8, as the code has it. The "drag" listener sets the position of the
    dragged node to the pointer, exactly, and writes nothing else: the
    velocity of that node, the other nodes, the targets, the links, the
    simulation and the drawing are as before. *)
Theorem drag_sets_position {d3 : D3} (cfg : Config) (w : World) (i : nat)
    (x y : number) (d : Node) :
  w_nodes w !! i = Some d ->
  exists w' d',
    handle cfg (Drag i x y) w = Normal w'
    /\ w_nodes w' !! i = Some d'
    /\ Node.x d' = Some x /\ Node.y d' = Some y
    /\ Node.vx d' = Node.vx d /\ Node.vy d' = Node.vy d
    /\ (forall j, j <> i -> w_nodes w' !! j = w_nodes w !! j)
    /\ w_targets w' = w_targets w
    /\ w_links w' = w_links w
    /\ w_simulation w' = w_simulation w
    /\ w_dom w' = w_dom w.
Proof.
  intros Hd. eexists. eexists. split; [reflexivity|]. cbn. split.
  - by rewrite list_lookup_alter_eq, Hd.
  - cbn. repeat (split; [done|]). split; [|done].
    intros j Hj. by rewrite list_lookup_alter_ne.
Qed.

Lemma drag_sets_position_witness :
  exists w' d',
    handle (d3 := StandIn.d3) config (Drag 1 40 50) Sample.world = Normal w'
    /\ w_nodes w' !! 1%nat = Some d'
    /\ Node.x d' = Some 40 /\ Node.y d' = Some 50
    /\ w_nodes w' !! 0%nat = Sample.nodes !! 0%nat.
Proof.
  destruct (drag_sets_position (d3 := StandIn.d3) config Sample.world
              1 40 50 _ eq_refl)
    as (w' & d' & Hw' & Hd' & Hx & Hy & _ & _ & Hother & _).
  exists w', d'. repeat (split; [done|]). by apply Hother.
Defined.

(** C8 fails on the exemption from the forces: after a drag of node 2 to
    the origin, the snap force of the next tick changes the velocity of that
    very node, and the tick moves it away from the pointer. *)
Lemma dragged_node_is_not_exempt :
  exists w w1 d nodes' d' w2 d2,
    NecklaceGraph (math := StandIn.math) (d3 := StandIn.d3) = Normal w
    /\ handle (d3 := StandIn.d3) config (Drag 2 0 0) w = Normal w1
    /\ w_nodes w1 !! 2%nat = Some d
    /\ Node.x d = Some 0 /\ Node.y d = Some 0
    /\ Node.vx d = Some 0 /\ Node.vy d = Some 0
    /\ snap config (w_targets w1) 0.999 (w_nodes w1) = Normal nodes'
    /\ nodes' !! 2%nat = Some d'
    /\ (0 <? ToNumber (Node.vx d')) = true
    /\ (0 <? ToNumber (Node.vy d')) = true
    /\ handle (d3 := StandIn.d3) config TimerFrame w1 = Normal w2
    /\ w_nodes w2 !! 2%nat = Some d2
    /\ (0 <? ToNumber (Node.x d2)) = true
    /\ (0 <? ToNumber (Node.y d2)) = true.
Proof.
  do 7 eexists.
  split; [vm_compute; reflexivity|].
  split; [vm_compute; reflexivity|].
  split; [reflexivity|]. do 4 (split; [reflexivity|]).
  split; [vm_compute; reflexivity|].
  split; [reflexivity|]. do 2 (split; [reflexivity|]).
  split; [vm_compute; reflexivity|].
  split; [reflexivity|]. split; reflexivity.
Qed.

(** C9, what the code does. With a single offset ([segments = 0]) the only
    waypoint is computed at [t = 0 / 0], which is NaN: both of its
    coordinates are NaN whatever the two ends are, and the point still goes
    through the cardinal spline of d3. *)
Theorem multiSegmentWavyPathStable_zero_segments {d3 : D3}
    (source target : Node) (offset : Pair) :
  multiSegmentWavyPathStable source target [offset]
  = Normal (d3_line curveCardinal [(nan, nan)]).
Proof.
  unfold multiSegmentWavyPathStable. rewrite path_points_imap.
  destruct offset as [offsetX offsetY]. cbn.
  change (number_of_nat 0 / number_of_Z 0) with nan.
  by rewrite !mul_nan_r, !add_nan_r, !add_nan_l.
Qed.

(** C10. The loop that initializes the positions completes and puts every
    node exactly on its circular target; its result is what the simulation
    is created from, before any tick. *)
Theorem initial_positions_are_targets {math : MathLib} {d3 : D3}
    (cfg : Config) (nodes : list Node) :
  exists nodes',
    initialize_positions (targets cfg nodes) nodes = Normal nodes'
    /\ length nodes' = length nodes
    /\ (forall i d,
          nodes' !! i = Some d ->
          exists t,
            targets cfg nodes !! i = Some t
            /\ Node.x d = Some (Target.x t)
            /\ Node.y d = Some (Target.y t))
    /\ (forall w,
          NecklaceGraph_effect cfg nodes = Normal w ->
          w_targets w = targets cfg nodes
          /\ w_nodes w = d3_initializeNodes nodes').
Proof.
  destruct (initialize_positions_spec (targets cfg nodes) nodes)
    as (nodes' & Hinit & Hlen & Hpos); [apply targets_length|].
  exists nodes'. split; [exact Hinit|]. split; [exact Hlen|]. split.
  - intros i d' Hd'. destruct (Hpos i d' Hd') as (d & t & _ & Ht & ->).
    by exists t.
  - intros w. unfold NecklaceGraph_effect. rewrite Hinit. cbn.
    destruct (attach_offsets cfg (links nodes) 0) as [[ls k]|e]; cbn; [|done].
    by intros [= <-].
Qed.

Lemma initial_positions_are_targets_witness :
  exists nodes' d t,
    initialize_positions (targets (math := StandIn.math) config placeholderData)
      placeholderData = Normal nodes'
    /\ nodes' !! 1%nat = Some d
    /\ targets (math := StandIn.math) config placeholderData !! 1%nat = Some t
    /\ Node.x d = Some (Target.x t)
    /\ Node.y d = Some (Target.y t).
Proof.
  destruct (initial_positions_are_targets (math := StandIn.math)
              (d3 := StandIn.d3) config placeholderData)
    as (nodes' & Hinit & Hlen & Hpos & _).
  destruct (lookup_lt_is_Some_2 nodes' 1%nat) as [d Hd].
  { rewrite Hlen. cbn. lia. }
  destruct (Hpos 1%nat d Hd) as (t & Ht & Hx & Hy).
  by exists nodes', d, t.
Defined.

(** * More properties of the component *)

(** ** Paths, links and offsets *)

Lemma sub_nan_r a : a - nan = nan.
Proof.
  apply Prim2SF_inj. rewrite sub_spec.
  change (Prim2SF nan) with S754_nan. by destruct (Prim2SF a).
Qed.

Lemma mul_nan_l a : nan * a = nan.
Proof. apply Prim2SF_inj. by rewrite mul_spec. Qed.

Lemma random_offsets_lookup {math : MathLib} (n : nat) :
  forall k j,
    (j < n)%nat ->
    (random_offsets n k).1 !! j
    = Some ((Math_random (k + 2 * j) - 0.5) * maxOffset,
            (Math_random (k + 2 * j + 1) - 0.5) * maxOffset).
Proof.
  induction n as [|n IH]; intros k j Hj; [lia|].
  cbn [random_offsets].
  destruct (random_offsets n (S (S k))) as [rest k'] eqn:Hrest.
  destruct j as [|j]; cbn [fst].
  - rewrite Nat.mul_0_r, !Nat.add_0_r, Nat.add_1_r. reflexivity.
  - specialize (IH (S (S k)) j). rewrite Hrest in IH. cbn [fst] in IH.
    change ((?a :: rest) !! S j) with (rest !! j). rewrite IH by lia.
    do 2 f_equal; do 3 f_equal; lia.
Qed.

Lemma follow_links (nodes : list Node) (k : nat) :
  forall i,
    (i < length nodes)%nat ->
    follow (links nodes) k i = Some ((i + k) mod length nodes)%nat.
Proof.
  induction k as [|k IH]; intros i Hi.
  - cbn. by rewrite Nat.add_0_r, Nat.mod_small.
  - cbn [follow].
    destruct (lookup_lt_is_Some_2 (links nodes) i) as [l Hl].
    { by rewrite links_length. }
    rewrite Hl. destruct (links_lookup nodes i l Hl) as [_ ->]. cbn.
    rewrite IH by (apply Nat.mod_upper_bound; lia).
    f_equal. rewrite Nat.Div0.add_mod_idemp_l. f_equal. lia.
Qed.

(** X1. The path function never throws, whatever the two nodes and the
    offsets are: the loop reads the offsets in range only, and hands d3 one
    waypoint per offset. Without any offset the loop does not run and d3 is
    given no point. *)
Theorem multiSegmentWavyPathStable_total {d3 : D3} (source target : Node)
    (segmentOffsets : list Pair) :
  exists points,
    multiSegmentWavyPathStable source target segmentOffsets
    = Normal (d3_line curveCardinal points)
    /\ length points = length segmentOffsets
    /\ (segmentOffsets = [] -> points = []).
Proof.
  exists (imap (waypoint source target
                  (Z.of_nat (length segmentOffsets) - 1)) segmentOffsets).
  split; [|split].
  - unfold multiSegmentWavyPathStable. by rewrite path_points_imap.
  - apply length_imap.
  - by intros ->.
Qed.

(** X2. The links form one ring through all the nodes: following [k] links
    from node 0 leads to node [k mod n], so every node [i] is reached after
    [i] links and the walk is back at node 0 after [n] links. *)
Theorem links_single_cycle (nodes : list Node) (k : nat) :
  let n := length nodes in
  (1 <= n)%nat ->
  follow (links nodes) k 0 = Some (k mod n)%nat
  /\ follow (links nodes) n 0 = Some 0%nat
  /\ forall i, (i < n)%nat -> follow (links nodes) i 0 = Some i.
Proof.
  intros n Hn. split; [|split].
  - by rewrite follow_links by lia.
  - rewrite follow_links by lia. cbn. by rewrite Nat.Div0.mod_same.
  - intros i Hi. rewrite follow_links by lia. cbn. by rewrite Nat.mod_small.
Qed.

Lemma links_single_cycle_witness :
  (1 <= length placeholderData)%nat
  /\ follow (links placeholderData) 7 0 = Some 2%nat
  /\ follow (links placeholderData) 5 0 = Some 0%nat.
Proof.
  assert (Hn : (1 <= length placeholderData)%nat) by (cbn; lia).
  split; [exact Hn|].
  destruct (links_single_cycle placeholderData 7 Hn) as (Hk & Hback & _).
  split; [exact Hk|exact Hback].
Defined.

(** X3. Every node is the target of exactly one link (and, by
    construction, the source of exactly one): node [j] is entered by the
    link that leaves node [(j + n - 1) mod n], and by no other. *)
Theorem links_one_incoming (nodes : list Node) (j : nat) :
  let n := length nodes in
  (j < n)%nat ->
  exists l,
    links nodes !! ((j + n - 1) mod n)%nat = Some l
    /\ Link.target l = j
    /\ forall i l',
         links nodes !! i = Some l' ->
         Link.target l' = j ->
         i = ((j + n - 1) mod n)%nat.
Proof.
  intros n Hj.
  assert (Hp : ((j + n - 1) mod n < n)%nat)
    by (apply Nat.mod_upper_bound; lia).
  destruct (lookup_lt_is_Some_2 (links nodes) ((j + n - 1) mod n)) as [l Hl].
  { by rewrite links_length. }
  exists l. split; [exact Hl|].
  assert (Hin : forall i, (i < n)%nat -> ((i + 1) mod n)%nat = j ->
                          i = ((j + n - 1) mod n)%nat).
  { intros i Hi Ht. destruct (decide (i + 1 = n)%nat) as [Heq|Hne].
    - rewrite Heq, Nat.Div0.mod_same in Ht. subst j.
      rewrite Nat.mod_small; lia.
    - rewrite Nat.mod_small in Ht by lia. subst j.
      replace (i + 1 + n - 1)%nat with (i + 1 * n)%nat by lia.
      by rewrite Nat.Div0.mod_add, Nat.mod_small. }
  split.
  - destruct (links_lookup nodes _ l Hl) as [_ ->]. cbn. fold n.
    destruct (decide (j = 0)%nat) as [->|Hj0].
    + replace (0 + n - 1)%nat with (n - 1)%nat by lia.
      rewrite (Nat.mod_small (n - 1)) by lia.
      replace (n - 1 + 1)%nat with n by lia. apply Nat.Div0.mod_same.
    + replace (j + n - 1)%nat with (j - 1 + 1 * n)%nat by lia.
      rewrite Nat.Div0.mod_add, (Nat.mod_small (j - 1)) by lia.
      replace (j - 1 + 1)%nat with j by lia. apply Nat.mod_small. lia.
  - intros i l' Hl' Ht. destruct (links_lookup nodes i l' Hl') as [Hi ->].
    by apply Hin.
Qed.

Lemma links_one_incoming_witness :
  (0 < length placeholderData)%nat
  /\ exists l,
       links placeholderData !! 4%nat = Some l /\ Link.target l = 0%nat.
Proof.
  assert (Hj : (0 < length placeholderData)%nat) by (cbn; lia).
  split; [exact Hj|].
  destruct (links_one_incoming placeholderData 0 Hj) as (l & Hl & Ht & _).
  by exists l.
Defined.

(** ** Edge cases of the effect *)

Section MoreEffectProperties.
Context {math : MathLib} {d3 : D3}.
Variable cfg : Config.


(** A tick in a well-formed world: it completes, cools the simulation,
    and draws the nodes as it leaves them. *)
Lemma simulation_step_spec (w : World) :
  well_formed w ->
  exists w',
    simulation_step cfg w = Normal w'
    /\ same_setup w w'
    /\ w_simulation w' = cool (w_simulation w)
    /\ w_selected w' = w_selected w
    /\ ticked cfg (w_nodes w') (w_links w') = Normal (w_dom w').
Proof.
  intros [Hlen Hls]. unfold simulation_step.
  set (alpha := Simulation.alpha (w_simulation w) + _ * _).
  set (nodes3 := d3_forceCollide _ alpha _).
  assert (Hn3 : length nodes3 = length (w_nodes w)).
  { unfold nodes3.
    by rewrite d3_forceCollide_length, d3_forceCenter_length,
      d3_forceManyBody_length. }
  destruct (snap_spec cfg (w_targets w) nodes3)
    as (nodes4 & Hsnap & Hn4 & _); [congruence|].
  rewrite Hsnap. cbn.
  destruct (ticked_total cfg (d3_integrate nodes4) (w_links w))
    as [dom Hdom].
  { by rewrite d3_integrate_length, Hn4, Hn3. }
  rewrite Hdom. cbn. eexists. split; [reflexivity|]. cbn.
  split; [|by repeat split].
  repeat split; cbn. by rewrite d3_integrate_length, Hn4, Hn3.
Qed.

Lemma length_0_nil {A} (l : list A) : length l = 0%nat -> l = [].
Proof. by destruct l. Qed.

Lemma NecklaceGraph_effect_empty :
  NecklaceGraph_effect cfg []
  = Normal (mkWorld [] [] [] initial_simulation (Dom.mk [] [] []) 0 None).
Proof.
  unfold NecklaceGraph_effect. cbn.
  rewrite (length_0_nil (d3_initializeNodes [])); [done|].
  by rewrite d3_initializeNodes_length.
Qed.
End MoreEffectProperties.

(** X4. Every coordinate of every offset comes from a call of
    [Math.random] of its own, in the order of the links: with
    [L = numSegments + 1] offsets per link, offset [j] of link [i] is
    [((r - 0.5) * 20, (r' - 0.5) * 20)] where [r] and [r'] are the results of
    calls [2 (L i + j)] and [2 (L i + j) + 1]. *)
Theorem offsets_from_random {math : MathLib} {d3 : D3} (cfg : Config)
    (nodes : list Node) :
  (Config.numSegments cfg < 4294967295)%Z ->
  exists w,
    NecklaceGraph_effect cfg nodes = Normal w
    /\ forall i,
         (i < length nodes)%nat ->
         exists l offsets,
           w_links w !! i = Some l
           /\ Link.segmentOffsets l = Some offsets
           /\ length offsets = offsets_length cfg
           /\ forall j,
                (j < offsets_length cfg)%nat ->
                offsets !! j
                = Some ((Math_random (2 * (offsets_length cfg * i + j)) - 0.5)
                        * 20,
                        (Math_random (2 * (offsets_length cfg * i + j) + 1)
                         - 0.5) * 20).
Proof.
  intros Hseg.
  destruct (NecklaceGraph_effect_completes cfg nodes Hseg)
    as (w & Hw & _ & _ & Hlinks & _).
  exists w. split; [exact Hw|]. intros i Hi.
  destruct (lookup_lt_is_Some_2 (links nodes) i) as [l0 Hl0].
  { by rewrite links_length. }
  eexists. eexists. split; [by rewrite Hlinks, list_lookup_imap, Hl0|].
  cbn [Link.segmentOffsets]. split; [reflexivity|].
  split; [apply (proj1 (random_offsets_spec _ _))|].
  intros j Hj. rewrite random_offsets_lookup by done.
  replace (2 * offsets_length cfg * i + 2 * j)%nat
    with (2 * (offsets_length cfg * i + j))%nat by lia.
  reflexivity.
Qed.

Lemma offsets_from_random_witness :
  (Config.numSegments config < 4294967295)%Z
  /\ exists w l offsets,
       NecklaceGraph (math := StandIn.math) (d3 := StandIn.d3) = Normal w
       /\ w_links w !! 1%nat = Some l
       /\ Link.segmentOffsets l = Some offsets
       /\ offsets !! 2%nat
          = Some ((StandIn.random 18 - 0.5) * 20,
                  (StandIn.random 19 - 0.5) * 20).
Proof.
  assert (Hseg : (Config.numSegments config < 4294967295)%Z) by (cbn; lia).
  split; [exact Hseg|].
  destruct (offsets_from_random (math := StandIn.math) (d3 := StandIn.d3)
              config placeholderData Hseg) as (w & Hw & Hlinks).
  destruct (Hlinks 1%nat) as (l & offsets & Hl & Ho & _ & Hoff);
    [cbn; lia|].
  exists w, l, offsets. split; [exact Hw|]. split; [exact Hl|].
  split; [exact Ho|]. apply (Hoff 2%nat). vm_compute. lia.
Defined.

(** X5. With no node, the effect completes under every configuration: no
    target, no link, no call of [Math.random], and the simulation is
    created and running all the same. The next timer frame runs a tick over
    nothing and draws nothing. *)
Theorem empty_dataset_still_runs {math : MathLib} {d3 : D3} (cfg : Config) :
  exists w w',
    NecklaceGraph_effect cfg [] = Normal w
    /\ w_nodes w = [] /\ w_targets w = [] /\ w_links w = []
    /\ w_random w = 0%nat
    /\ Simulation.running (w_simulation w) = true
    /\ handle cfg TimerFrame w = Normal w'
    /\ w_nodes w' = []
    /\ w_dom w' = Dom.mk [] [] []
    /\ w_simulation w' = cool (w_simulation w).
Proof.
  pose proof (NecklaceGraph_effect_empty cfg) as Hw.
  destruct (simulation_step_spec cfg _
              (NecklaceGraph_effect_well_formed cfg [] _ Hw))
    as (w' & Hstep & (_ & Hl & _ & Hn) & Hsim & _ & Hdom).
  eexists. exists w'. split; [exact Hw|]. cbn.
  do 5 (split; [done|]). split; [exact Hstep|].
  cbn in Hn, Hl. apply length_0_nil in Hn.
  split; [exact Hn|]. split; [|exact Hsim].
  rewrite Hn, Hl in Hdom. cbn in Hdom. by injection Hdom as <-.
Qed.

(** X6. A [numSegments] of 2^32 - 1 or more makes the effect throw a
    RangeError as soon as there is a node: [Array.from] is asked for an
    array longer than arrays can be, and no simulation is created. *)
Theorem oversized_numSegments_throws {math : MathLib} {d3 : D3}
    (cfg : Config) (nodes : list Node) :
  nodes <> [] ->
  (4294967295 <= Config.numSegments cfg)%Z ->
  NecklaceGraph_effect cfg nodes = Throw RangeError.
Proof.
  intros Hnodes Hseg.
  destruct (initialize_positions_spec (targets cfg nodes) nodes)
    as (nodes' & Hinit & _); [apply targets_length|].
  unfold NecklaceGraph_effect. rewrite Hinit. cbn.
  destruct nodes as [|d nodes]; [done|]. cbn [links imap attach_offsets].
  unfold array_length.
  destruct (Z.ltb_spec 4294967295 (Config.numSegments cfg + 1)); [done|lia].
Qed.

Lemma oversized_numSegments_throws_witness :
  placeholderData <> []
  /\ (4294967295 <= Config.numSegments Scenario.oversized_config)%Z
  /\ NecklaceGraph_effect (math := StandIn.math) (d3 := StandIn.d3)
       Scenario.oversized_config placeholderData = Throw RangeError.
Proof.
  assert (Hnodes : placeholderData <> []) by discriminate.
  assert (Hseg : (4294967295
                  <= Config.numSegments Scenario.oversized_config)%Z)
    by (cbn; lia).
  split; [exact Hnodes|]. split; [exact Hseg|].
  exact (oversized_numSegments_throws (math := StandIn.math)
           (d3 := StandIn.d3) Scenario.oversized_config placeholderData
           Hnodes Hseg).
Defined.

(** ** The simulation record along the events *)

Lemma simulation_after_constants (e : Event) (s : Simulation) :
  Simulation.alphaMin (simulation_after e s) = Simulation.alphaMin s
  /\ Simulation.alphaDecay (simulation_after e s) = Simulation.alphaDecay s
  /\ (Simulation.alphaTarget s = 0 ->
      Simulation.alphaTarget (simulation_after e s) = 0).
Proof.
  destruct e; cbn; try done.
  by destruct (Simulation.running s).
Qed.

Lemma simulation_after_all_constants (events : list Event) :
  forall s,
    Simulation.alphaMin (simulation_after_all events s) = Simulation.alphaMin s
    /\ Simulation.alphaDecay (simulation_after_all events s)
       = Simulation.alphaDecay s
    /\ (Simulation.alphaTarget s = 0 ->
        Simulation.alphaTarget (simulation_after_all events s) = 0).
Proof.
  induction events as [|e events IH]; intros s; [done|].
  cbn. destruct (IH (simulation_after e s)) as (Hmin & Hdecay & Htarget).
  destruct (simulation_after_constants e s) as (Hmin' & Hdecay' & Htarget').
  fold (simulation_after_all events (simulation_after e s)).
  rewrite Hmin, Hdecay, Hmin', Hdecay'. auto.
Qed.

(** A stopped simulation is left as it is by a timer frame. *)
Lemma frames_stopped (k : nat) (s : Simulation) :
  Simulation.running s = false ->
  Nat.iter k (simulation_after TimerFrame) s = s.
Proof.
  intros Hs. induction k as [|k IH]; [done|].
  rewrite Nat.iter_succ, IH. cbn. by rewrite Hs.
Qed.

Lemma frames_stay_stopped (j k : nat) (s : Simulation) :
  (j <= k)%nat ->
  Simulation.running (Nat.iter j (simulation_after TimerFrame) s) = false ->
  Nat.iter k (simulation_after TimerFrame) s
  = Nat.iter j (simulation_after TimerFrame) s.
Proof.
  intros Hjk Hj. replace k with ((k - j) + j)%nat by lia.
  rewrite Nat.iter_add. by apply frames_stopped.
Qed.

(** Without a cleanup, and with [alphaTarget] at 0, only the timer frames
    count. *)
Lemma simulation_after_all_frames (events : list Event) :
  forall s,
    Simulation.alphaTarget s = 0 ->
    Forall (fun e => is_cleanup e = false) events ->
    simulation_after_all events s
    = Nat.iter (count_frames events) (simulation_after TimerFrame) s.
Proof.
  induction events as [|e events IH]; intros s Hs Hev; [done|].
  inversion Hev as [|? ? He Hev']; subst.
  unfold simulation_after_all. cbn [fold_left].
  fold (simulation_after_all events (simulation_after e s)).
  rewrite IH; [|by apply simulation_after_constants|done].
  destruct e; cbn [count_frames is_frame]; try done.
  - by rewrite Nat.iter_succ_r.
  - cbn. destruct s. cbn in Hs. by subst.
Qed.

Lemma cooling_frames_exact :
  Simulation.running
    (Nat.iter (pred cooling_frames) (simulation_after TimerFrame)
       initial_simulation) = true
  /\ Simulation.running
       (Nat.iter cooling_frames (simulation_after TimerFrame)
          initial_simulation) = false.
Proof. split; vm_compute; reflexivity. Qed.

Lemma running_until_cooled (k : nat) :
  Simulation.running
    (Nat.iter k (simulation_after TimerFrame) initial_simulation)
  = (k <? cooling_frames)%nat.
Proof.
  destruct cooling_frames_exact as [Hbefore Hat].
  destruct (Nat.ltb_spec k cooling_frames) as [Hk|Hk].
  - destruct (Simulation.running (Nat.iter k _ _)) eqn:Hrun; [reflexivity|].
    assert (Hle : (k <= pred cooling_frames)%nat) by lia.
    rewrite (frames_stay_stopped k (pred cooling_frames) _ Hle Hrun)
      in Hbefore.
    rewrite Hrun in Hbefore. discriminate Hbefore.
  - rewrite (frames_stay_stopped cooling_frames k _ Hk Hat). exact Hat.
Qed.

Section EventProperties.
Context {math : MathLib} {d3 : D3}.
Variable cfg : Config.

Lemma handle_spec (e : Event) (w : World) :
  well_formed w ->
  exists w',
    handle cfg e w = Normal w'
    /\ same_setup w w'
    /\ w_simulation w' = simulation_after e (w_simulation w).
Proof.
  intros Hw. destruct e as [|i|i x y|i|i|]; cbn.
  - destruct (Simulation.running (w_simulation w)).
    + destruct (simulation_step_spec cfg w Hw) as (w' & Hstep & Hsame & Hs & _).
      by exists w'.
    + by exists w.
  - by exists w.
  - eexists. split; [reflexivity|]. split; [|done].
    repeat split; cbn. apply length_alter.
  - eexists. split; [reflexivity|]. by repeat split.
  - eexists. split; [reflexivity|]. by repeat split.
  - eexists. split; [reflexivity|]. by repeat split.
Qed.

Lemma run_spec (events : list Event) :
  forall w,
    well_formed w ->
    exists w',
      run cfg events w = Normal w'
      /\ same_setup w w'
      /\ well_formed w'
      /\ w_simulation w' = simulation_after_all events (w_simulation w).
Proof.
  induction events as [|e events IH]; intros w Hw.
  - by exists w.
  - destruct (handle_spec e w Hw) as (w1 & He & Hs1 & Hsim1).
    destruct (IH w1 (same_setup_well_formed _ _ Hs1 Hw))
      as (w2 & Hrun & Hs2 & Hw2 & Hsim2).
    exists w2. cbn [run]. rewrite He. cbn. split; [exact Hrun|].
    split; [|split; [exact Hw2|]].
    + destruct Hs1 as (? & ? & ? & ?), Hs2 as (? & ? & ? & ?).
      repeat split; congruence.
    + rewrite Hsim2, Hsim1. reflexivity.
Qed.

End EventProperties.

Section SelectionProperties.
Context {math : MathLib} {d3 : D3}.
Variable cfg : Config.

Lemma handle_with_selected (e : Event) (s : option nat) (w : World) :
  is_click e = false ->
  handle cfg e (with_selected s w) = with_selected s <$> handle cfg e w.
Proof.
  intros He. destruct e as [|i|i x y|i|i|]; try done. cbn.
  destruct (Simulation.running (w_simulation w)); [|done].
  unfold simulation_step. cbn -[ticked snap].
  destruct (snap _ _ _ _) as [nodes4|err]; cbn -[ticked]; [|done].
  by destruct (ticked _ _ _) as [dom|err].
Qed.

(** The clicks only reach the selection: a run without them ends in the
    same world, selection apart. *)
Lemma run_without_clicks (events : list Event) :
  forall w s w2,
    run cfg (List.filter (fun e => negb (is_click e)) events) w = Normal w2 ->
    exists s', run cfg events (with_selected s w) = Normal (with_selected s' w2).
Proof.
  induction events as [|e events IH]; intros w s w2 Hrun.
  - cbn in Hrun. injection Hrun as <-. by exists s.
  - cbn [List.filter] in Hrun. destruct (is_click e) eqn:He; cbn in Hrun.
    + destruct e; try done. cbn [run handle]. cbn.
      apply (IH w (Some i) w2 Hrun).
    + cbn [run]. rewrite handle_with_selected by done.
      destruct (handle cfg e w) as [w1|err]; cbn in *; [|done].
      by apply IH.
Qed.
End SelectionProperties.

(** ** More theorems *)



(** X8. Nothing restarts the simulation. Once its timer is stopped (it
    cooled down, or the effect was cleaned up), every sequence of events
    completes with the timer still stopped, alpha as it was and the drawing
    untouched: a drag then moves its node, but is never drawn. Without a
    drag the nodes are not touched either. *)
Theorem stopped_simulation_stays_stopped {d3 : D3} (cfg : Config)
    (w : World) (events : list Event) :
  Simulation.running (w_simulation w) = false ->
  exists w',
    run cfg events w = Normal w'
    /\ Simulation.running (w_simulation w') = false
    /\ Simulation.alpha (w_simulation w') = Simulation.alpha (w_simulation w)
    /\ w_dom w' = w_dom w
    /\ w_targets w' = w_targets w
    /\ w_links w' = w_links w
    /\ (Forall (fun e => is_drag e = false) events -> w_nodes w' = w_nodes w).
Proof.
  revert w. induction events as [|e events IH]; intros w Hw.
  - by exists w.
  - assert (Hstep : exists w1,
      handle cfg e w = Normal w1
      /\ Simulation.running (w_simulation w1) = false
      /\ Simulation.alpha (w_simulation w1) = Simulation.alpha (w_simulation w)
      /\ w_dom w1 = w_dom w
      /\ w_targets w1 = w_targets w
      /\ w_links w1 = w_links w
      /\ (is_drag e = false -> w_nodes w1 = w_nodes w)).
    { destruct e; cbn; rewrite ?Hw; eexists; (split; [reflexivity|]);
        cbn; by repeat split. }
    destruct Hstep as (w1 & He & Hr1 & Ha1 & Hd1 & Ht1 & Hl1 & Hn1).
    destruct (IH w1 Hr1) as (w2 & Hrun & Hr2 & Ha2 & Hd2 & Ht2 & Hl2 & Hn2).
    exists w2. cbn [run]. rewrite He. cbn. split; [exact Hrun|].
    split; [exact Hr2|]. repeat split; try congruence.
    intros Hev. inversion Hev as [|? ? Hdrag Hev']; subst.
    rewrite Hn2, Hn1; done.
Qed.

Lemma stopped_simulation_stays_stopped_witness :
  Simulation.running (w_simulation Scenario.stopped) = false
  /\ exists w' d,
       run (d3 := StandIn.d3) config
         [TimerFrame; Drag 1 40 50; DragEnd 1; TimerFrame] Scenario.stopped
       = Normal w'
       /\ w_dom w' = w_dom Scenario.stopped
       /\ w_nodes w' !! 1%nat = Some d
       /\ Node.x d = Some 40.
Proof.
  split; [reflexivity|].
  destruct (stopped_simulation_stays_stopped (d3 := StandIn.d3) config
              Scenario.stopped
              [TimerFrame; Drag 1 40 50; DragEnd 1; TimerFrame] eq_refl)
    as (w' & Hrun & _ & _ & Hdom & _).
  exists w'. eexists. split; [exact Hrun|]. split; [exact Hdom|].
  cbn in Hrun. injection Hrun as <-. split; reflexivity.
Defined.

(** X9. In every state the component can reach, [alphaTarget] is 0 and
    [alphaMin] and [alphaDecay] are 0.001: no event writes anything else
    into them, so every tick moves alpha towards 0 by a thousandth. *)
Theorem alphaTarget_always_zero {math : MathLib} {d3 : D3} (cfg : Config)
    (nodes : list Node) :
  (Config.numSegments cfg < 4294967295)%Z ->
  exists w,
    NecklaceGraph_effect cfg nodes = Normal w
    /\ forall events,
         exists w',
           run cfg events w = Normal w'
           /\ Simulation.alphaTarget (w_simulation w') = 0
           /\ Simulation.alphaMin (w_simulation w') = 0.001
           /\ Simulation.alphaDecay (w_simulation w') = 0.001.
Proof.
  intros Hseg.
  destruct (NecklaceGraph_effect_completes cfg nodes Hseg)
    as (w & Hw & _ & _ & _ & _ & Hsim).
  exists w. split; [exact Hw|]. intros events.
  destruct (run_spec cfg events w
              (NecklaceGraph_effect_well_formed cfg nodes w Hw))
    as (w' & Hrun & _ & _ & Hsim').
  exists w'. split; [exact Hrun|]. rewrite Hsim', Hsim.
  destruct (simulation_after_all_constants events
              (Simulation.mk 1 0.001 0.001 0 true))
    as (Hmin & Hdecay & Htarget).
  rewrite Hmin, Hdecay. split; [by apply Htarget|done].
Qed.

Lemma alphaTarget_always_zero_witness :
  (Config.numSegments config < 4294967295)%Z
  /\ exists w w',
       NecklaceGraph (math := StandIn.math) (d3 := StandIn.d3) = Normal w
       /\ run (d3 := StandIn.d3) config Sample.events w = Normal w'
       /\ Simulation.alphaTarget (w_simulation w') = 0.
Proof.
  assert (Hseg : (Config.numSegments config < 4294967295)%Z) by (cbn; lia).
  split; [exact Hseg|].
  destruct (alphaTarget_always_zero (math := StandIn.math) (d3 := StandIn.d3)
              config placeholderData Hseg) as (w & Hw & Hall).
  destruct (Hall Sample.events) as (w' & Hrun & Htarget & _).
  by exists w, w'.
Defined.

(** X10. Clicks are observed and nothing more: after the effect, a
    sequence of events and the same sequence without its clicks both
    complete, and they end with the same nodes, targets, links, simulation,
    drawing and count of random numbers. Only [selected] can differ. *)
Theorem clicks_do_not_interfere {math : MathLib} {d3 : D3} (cfg : Config)
    (nodes : list Node) (w : World) (events : list Event) :
  NecklaceGraph_effect cfg nodes = Normal w ->
  exists w1 w2,
    run cfg events w = Normal w1
    /\ run cfg (List.filter (fun e => negb (is_click e)) events) w = Normal w2
    /\ w_nodes w1 = w_nodes w2
    /\ w_targets w1 = w_targets w2
    /\ w_links w1 = w_links w2
    /\ w_simulation w1 = w_simulation w2
    /\ w_dom w1 = w_dom w2
    /\ w_random w1 = w_random w2.
Proof.
  intros Hw.
  pose proof (NecklaceGraph_effect_well_formed cfg nodes w Hw) as Hwf.
  destruct (run_total cfg (List.filter (fun e => negb (is_click e)) events)
              w Hwf) as (w2 & Hrun2 & _).
  destruct (run_without_clicks cfg events w (w_selected w) w2 Hrun2)
    as [s' Hrun1].
  replace (with_selected (w_selected w) w) with w in Hrun1 by by destruct w.
  exists (with_selected s' w2), w2. by repeat split.
Qed.

Lemma clicks_do_not_interfere_witness :
  exists w w1 w2,
    NecklaceGraph (math := StandIn.math) (d3 := StandIn.d3) = Normal w
    /\ run (d3 := StandIn.d3) config Scenario.clicks_and_drags w = Normal w1
    /\ run (d3 := StandIn.d3) config [TimerFrame; Drag 2 0 0; TimerFrame; DragEnd 2]
         w = Normal w2
    /\ w_nodes w1 = w_nodes w2
    /\ w_dom w1 = w_dom w2.
Proof.
  destruct (NecklaceGraph_effect_completes (math := StandIn.math)
              (d3 := StandIn.d3) config placeholderData)
    as (w & Hw & _); [cbn; lia|].
  destruct (clicks_do_not_interfere (math := StandIn.math) (d3 := StandIn.d3)
              config placeholderData w Scenario.clicks_and_drags Hw)
    as (w1 & w2 & Hrun1 & Hrun2 & Hnodes & _ & _ & _ & Hdom & _).
  exists w, w1, w2. split; [exact Hw|]. split; [exact Hrun1|].
  split; [exact Hrun2|]. split; [exact Hnodes|exact Hdom].
Defined.

(** X11. Drag moves compose as assignments do: of two drag moves of the
    same node only the second counts, and drag moves of two different nodes
    can be swapped. *)
Theorem drags_compose {d3 : D3} (cfg : Config) (w : World) (i j : nat)
    (x1 y1 x2 y2 : number) :
  run cfg [Drag i x1 y1; Drag i x2 y2] w = run cfg [Drag i x2 y2] w
  /\ (i <> j ->
      run cfg [Drag i x1 y1; Drag j x2 y2] w
      = run cfg [Drag j x2 y2; Drag i x1 y1] w).
Proof.
  split.
  - cbn. unfold with_nodes. cbn. do 2 f_equal.
    rewrite list_alter_alter_eq. by apply list_alter_ext.
  - intros Hij. cbn. unfold with_nodes. cbn. do 2 f_equal.
    apply list_alter_alter_ne. congruence.
Qed.



(** X13. The snap force does not guard the position it reads. For a node
    whose [x] is undefined or NaN the new [vx] is NaN, whatever its target
    and its old velocity are, and likewise for [y] and [vy]; the loop still
    completes. *)
Theorem snap_without_position (cfg : Config) (targets : list Target)
    (alpha : number) (nodes : list Node) (i : nat) (d : Node) :
  length targets = length nodes ->
  nodes !! i = Some d ->
  exists nodes' d',
    snap cfg targets alpha nodes = Normal nodes'
    /\ nodes' !! i = Some d'
    /\ (ToNumber (Node.x d) = nan -> Node.vx d' = Some nan)
    /\ (ToNumber (Node.y d) = nan -> Node.vy d' = Some nan).
Proof.
  intros Hlen Hd.
  destruct (snap_spec cfg targets nodes Hlen) as (nodes' & Hsnap & _ & Hnode).
  destruct (lookup_lt_is_Some_2 targets i) as [t Ht].
  { rewrite Hlen. by eapply lookup_lt_Some. }
  exists nodes'. eexists. split; [apply Hsnap|].
  split; [exact (Hnode i d t Hd Ht)|]. cbn.
  split; intros ->; by rewrite sub_nan_r, mul_nan_l, add_nan_r.
Qed.

Lemma snap_without_position_witness :
  exists nodes' d',
    snap config [Target.mk 1000 500] 1 Scenario.unplaced = Normal nodes'
    /\ nodes' !! 0%nat = Some d'
    /\ Node.vx d' = Some nan
    /\ Node.vy d' = Some nan.
Proof.
  destruct (snap_without_position config [Target.mk 1000 500] 1
              Scenario.unplaced 0 _ eq_refl eq_refl)
    as (nodes' & d' & Hsnap & Hd' & Hvx & Hvy).
  exists nodes', d'. split; [exact Hsnap|]. split; [exact Hd'|].
  split; [exact (Hvx eq_refl)|exact (Hvy eq_refl)].
Defined.

(** X14. The simulation cools down on a fixed schedule that nothing can
    prolong: as long as the effect is not cleaned up, whatever drags and
    clicks happen in between, the timer is still running after fewer than
    6905 timer frames and is stopped from the 6905th on. *)
Theorem cooling_takes_6905_frames {math : MathLib} {d3 : D3} (cfg : Config)
    (nodes : list Node) (events : list Event) :
  (Config.numSegments cfg < 4294967295)%Z ->
  Forall (fun e => is_cleanup e = false) events ->
  exists w w',
    NecklaceGraph_effect cfg nodes = Normal w
    /\ run cfg events w = Normal w'
    /\ Simulation.running (w_simulation w')
       = (count_frames events <? Z.to_nat 6905)%nat.
Proof.
  intros Hseg Hevents.
  destruct (NecklaceGraph_effect_completes cfg nodes Hseg)
    as (w & Hw & _ & _ & _ & _ & Hsim).
  destruct (run_spec cfg events w
              (NecklaceGraph_effect_well_formed cfg nodes w Hw))
    as (w' & Hrun & _ & _ & Hsim').
  exists w, w'. split; [exact Hw|]. split; [exact Hrun|].
  rewrite Hsim', Hsim.
  change (Simulation.mk 1 0.001 0.001 0 true) with initial_simulation.
  rewrite simulation_after_all_frames by done.
  apply running_until_cooled.
Qed.

Lemma cooling_takes_6905_frames_witness :
  (Config.numSegments config < 4294967295)%Z
  /\ Forall (fun e => is_cleanup e = false) Sample.events
  /\ exists w w',
       NecklaceGraph (math := StandIn.math) (d3 := StandIn.d3) = Normal w
       /\ run (d3 := StandIn.d3) config Sample.events w = Normal w'
       /\ Simulation.running (w_simulation w') = true.
Proof.
  assert (Hseg : (Config.numSegments config < 4294967295)%Z) by (cbn; lia).
  assert (Hevents : Forall (fun e => is_cleanup e = false) Sample.events)
    by (repeat constructor).
  split; [exact Hseg|]. split; [exact Hevents|].
  destruct (cooling_takes_6905_frames (math := StandIn.math)
              (d3 := StandIn.d3) config placeholderData Sample.events
              Hseg Hevents) as (w & w' & Hw & Hrun & Hrunning).
  exists w, w'. split; [exact Hw|]. split; [exact Hrun|].
  rewrite Hrunning. vm_compute. reflexivity.
Defined.

(** X15. The targets are computed once: after the effect every sequence of
    events completes with the targets of the effect and with as many nodes
    as it was given, so that every node has its target at every tick. *)
Theorem targets_and_nodes_fixed {math : MathLib} {d3 : D3} (cfg : Config)
    (nodes : list Node) :
  (Config.numSegments cfg < 4294967295)%Z ->
  exists w,
    NecklaceGraph_effect cfg nodes = Normal w
    /\ forall events,
         exists w',
           run cfg events w = Normal w'
           /\ w_targets w' = targets cfg nodes
           /\ length (w_nodes w') = length nodes
           /\ length (w_targets w') = length (w_nodes w').
Proof.
  intros Hseg.
  destruct (NecklaceGraph_effect_completes cfg nodes Hseg)
    as (w & Hw & Hn & Htargets & _).
  exists w. split; [exact Hw|]. intros events.
  destruct (run_total cfg events w
              (NecklaceGraph_effect_well_formed cfg nodes w Hw))
    as (w' & Hrun & Ht & _ & _ & Hn').
  exists w'. split; [exact Hrun|].
  rewrite Ht, Htargets, Hn', Hn, targets_length. done.
Qed.

Lemma targets_and_nodes_fixed_witness :
  (Config.numSegments config < 4294967295)%Z
  /\ exists w w',
       NecklaceGraph (math := StandIn.math) (d3 := StandIn.d3) = Normal w
       /\ run (d3 := StandIn.d3) config Sample.events w = Normal w'
       /\ w_targets w' = targets (math := StandIn.math) config placeholderData
       /\ length (w_nodes w') = 5%nat.
Proof.
  assert (Hseg : (Config.numSegments config < 4294967295)%Z) by (cbn; lia).
  split; [exact Hseg|].
  destruct (targets_and_nodes_fixed (math := StandIn.math) (d3 := StandIn.d3)
              config placeholderData Hseg) as (w & Hw & Hall).
  destruct (Hall Sample.events) as (w' & Hrun & Ht & Hn & _).
  by exists w, w'.
Defined.
